(** * Cafe feedback dashboard: a shallow embedding of [data_analysis.py]

    The script cleans a table of feedback rows ([load_data]), ranks the
    frequent words of the comments ([top_words]), composes a templated
    narrative ([build_narrative]) and draws a Streamlit page.

    Conventions of the embedding.
    - A Python [str] is a list of Unicode code points ([list N]).
    - A pandas column that may hold NaN/None/NaT is a list of [option]s.
    - A finite Python float is the rational it denotes ([Q]); the places
      where Python rounds (the [float] constructor, pandas' [mean] and
      [median]) and the pandas parsers the script calls are fields of the
      [Runtime] record, about which nothing is assumed.
    - Regular expressions are run by a backtracking matcher with Python's
      priorities (greedy quantifiers, leftmost alternative first). *)

From Stdlib Require Import List Bool Arith NArith ZArith QArith Lia Sorted.
From Stdlib Require Import Permutation.
From Stdlib Require Import Ascii.
From Stdlib Require String.
Import String.StringSyntax.
Delimit Scope string_scope with string.
Close Scope Q_scope.
Import ListNotations.

Set Implicit Arguments.

(* ================================================================== *)
(** ** Python strings *)
(* ================================================================== *)

Definition char := N.
Definition str := list char.

(** A literal of the source, given as its ASCII text. *)
Definition py (s : String.string) : str :=
  map N_of_ascii (String.list_ascii_of_string s).
Arguments py s%_string.

Definition char_eqb (a b : char) : bool := N.eqb a b.

Fixpoint str_eqb (a b : str) : bool :=
  match a, b with
  | [], [] => true
  | x :: a', y :: b' => char_eqb x y && str_eqb a' b'
  | _, _ => false
  end.

(** Code-point order, as Python compares strings. *)
Fixpoint str_compare (a b : str) : comparison :=
  match a, b with
  | [], [] => Eq
  | [], _ :: _ => Lt
  | _ :: _, [] => Gt
  | x :: a', y :: b' =>
      match N.compare x y with
      | Eq => str_compare a' b'
      | c => c
      end
  end.

Definition in_range (lo hi c : N) : bool := N.leb lo c && N.leb c hi.

(** [Py_UNICODE_ISSPACE]: the one whitespace test behind [str.strip],
    [str.split] and the [\s] class of [re] on [str] patterns. *)
Definition is_space (c : char) : bool :=
  in_range 9 13 c || in_range 28 32 c
  || N.eqb c 133 || N.eqb c 160 || N.eqb c 5760
  || in_range 8192 8202 c
  || N.eqb c 8232 || N.eqb c 8233 || N.eqb c 8239 || N.eqb c 8287
  || N.eqb c 12288.

Definition is_digit (c : char) : bool := in_range 48 57 c.

Fixpoint lstrip (s : str) : str :=
  match s with
  | c :: s' => if is_space c then lstrip s' else s
  | [] => []
  end.

Definition rstrip (s : str) : str := rev (lstrip (rev s)).

(** [s.strip()] *)
Definition strip (s : str) : str := rstrip (lstrip s).

(** One pass of [s.split()] from the right: the word being read at the
    head of the text, and the words after it. *)
Definition flush (w : str) (ws : list str) : list str :=
  match w with [] => ws | _ :: _ => w :: ws end.

Fixpoint scan_words (s : str) : str * list str :=
  match s with
  | [] => ([], [])
  | c :: s' =>
      let (w, ws) := scan_words s' in
      if is_space c then ([], flush w ws) else (c :: w, ws)
  end.

(** [s.split()]: the maximal runs of non-whitespace. *)
Definition split (s : str) : list str :=
  let (w, ws) := scan_words s in flush w ws.

(** [sep.join(parts)] *)
Fixpoint join (sep : str) (parts : list str) : str :=
  match parts with
  | [] => []
  | [p] => p
  | p :: rest => p ++ sep ++ join sep rest
  end.

(** [len(s.split())] *)
Definition words_count (s : str) : nat := length (split s).

(* ================================================================== *)
(** ** Regular expressions ([re]) *)
(* ================================================================== *)

(** The fragment of [re] syntax the script's four patterns use.
    [Rep lo hi r] is the greedy quantifier [r{lo,hi}]; [hi = None] is
    "no upper bound", so [?] is [Rep 0 (Some 1)], [*] is [Rep 0 None] and
    [+] is [Rep 1 None]. *)
Inductive regex : Type :=
| Chr (p : char -> bool)
| Cat (r1 r2 : regex)
| Alt (r1 r2 : regex)
| Rep (lo : nat) (hi : option nat) (r : regex).

Definition opt (r : regex) : regex := Rep 0 (Some 1) r.
Definition star (r : regex) : regex := Rep 0 None r.
Definition plus (r : regex) : regex := Rep 1 None r.
Definition lit (c : N) : regex := Chr (N.eqb c).

Section Matcher.
Variable A : Type.

(** The iteration of a quantifier: [lo] iterations are still due and at
    most [hi] are allowed. [body s k'] runs the quantified expression at
    [s]; one more iteration is tried before the rest of the pattern, and
    an iteration has to consume input to go on. *)
Fixpoint iterate (body : str -> (str -> option A) -> option A)
         (k : str -> option A)
         (fuel lo : nat) (hi : option nat) (s : str) : option A :=
  match fuel with
  | 0 => None
  | S fuel' =>
      let again :=
        body s (fun s' =>
                  if length s' <? length s
                  then iterate body k fuel' (pred lo) (option_map pred hi) s'
                  else None) in
      match hi with
      | Some 0 => match lo with 0 => k s | S _ => None end
      | _ =>
          match lo with
          | S _ => again
          | 0 => match again with
                 | Some a => Some a
                 | None => k s
                 end
          end
      end
  end.

(** Backtracking match of [r] at the head of [s]; [k] is what remains
    to be matched after [r], applied to the rest of the input. *)
Fixpoint exec (r : regex) (s : str) (k : str -> option A) : option A :=
  match r with
  | Chr p =>
      match s with
      | c :: s' => if p c then k s' else None
      | [] => None
      end
  | Cat r1 r2 => exec r1 s (fun s1 => exec r2 s1 k)
  | Alt r1 r2 =>
      match exec r1 s k with
      | Some a => Some a
      | None => exec r2 s k
      end
  | Rep lo hi r1 => iterate (exec r1) k (S (length s)) lo hi s
  end.
End Matcher.

(** The text left after the match of [r] at the head of [s]. *)
Definition match_here (r : regex) (s : str) : option str :=
  exec r s (fun rest => Some rest).

(** [re.search(r, s)]: the leftmost match, as (text before, [m.group()],
    text after). *)
Fixpoint search (r : regex) (s : str) : option (str * str * str) :=
  match match_here r s with
  | Some rest => Some ([], firstn (length s - length rest) s, rest)
  | None =>
      match s with
      | [] => None
      | c :: s' =>
          match search r s' with
          | Some (b, m, a) => Some (c :: b, m, a)
          | None => None
          end
      end
  end.

(** The length of the match of [r] at the head of [s], when there is one
    and it is not empty. None of the patterns the script scans with
    ([\s+], [[,$]], [[a-zA-Z']+]) matches the empty string. *)
Definition match_length (r : regex) (s : str) : option nat :=
  match match_here r s with
  | Some rest =>
      if length rest <? length s then Some (length s - length rest) else None
  | None => None
  end.

(** [re.findall(r, s)] for a pattern without groups: the scan moves
    through the text, takes a match where one starts, and goes on after
    it; [skip] counts the characters still inside the last match. *)
Fixpoint findall_from (r : regex) (skip : nat) (s : str) : list str :=
  match s with
  | [] => []
  | _ :: s' =>
      match skip with
      | S n => findall_from r n s'
      | 0 =>
          match match_length r s with
          | Some len => firstn len s :: findall_from r (len - 1) s'
          | None => findall_from r 0 s'
          end
      end
  end.

Definition findall (r : regex) (s : str) : list str := findall_from r 0 s.

(** [re.sub(r, repl, s)] for a replacement without group references, by
    the same scan: a match is replaced, any other character is kept. *)
Fixpoint sub_from (r : regex) (repl : str) (skip : nat) (s : str) : str :=
  match s with
  | [] => []
  | c :: s' =>
      match skip with
      | S n => sub_from r repl n s'
      | 0 =>
          match match_length r s with
          | Some len => repl ++ sub_from r repl (len - 1) s'
          | None => c :: sub_from r repl 0 s'
          end
      end
  end.

Definition sub (r : regex) (repl : str) (s : str) : str := sub_from r repl 0 s.

(** [r"\s+"] *)
Definition spaces_pattern : regex := plus (Chr is_space).

(** [r"[,$]"] *)
Definition comma_dollar_pattern : regex :=
  Chr (fun c => N.eqb c 44 || N.eqb c 36).

(** [r"[a-zA-Z']+"] *)
Definition word_pattern : regex :=
  plus (Chr (fun c => in_range 97 122 c || in_range 65 90 c || N.eqb c 39)).

Definition digit : regex := Chr is_digit.

(** [r"-?\$?\s*([0-9]{1,3}(?:,[0-9]{3})*|[0-9]+)(?:\.[0-9]{1,2})?"] *)
Definition value_pattern : regex :=
  Cat (opt (lit 45))
   (Cat (opt (lit 36))
     (Cat (star (Chr is_space))
       (Cat (Alt (Cat (Rep 1 (Some 3) digit)
                      (star (Cat (lit 44) (Rep 3 (Some 3) digit))))
                 (plus digit))
            (opt (Cat (lit 46) (Rep 1 (Some 2) digit)))))).


(* ================================================================== *)
(** ** What the script takes from Python and pandas *)
(* ================================================================== *)

(** The library behaviour the script relies on and the embedding does not
    fix: the rounding of [float], pandas' numeric and date parsers, its
    floating-point [mean] and [median], and [str.lower] outside ASCII.
    [to_datetime] sees the whole column as well as the cell (pandas infers
    the date format from the column); a timestamp is a count of
    nanoseconds since the epoch. *)
Class Runtime : Type := {
  float_round : Q -> Q;
  to_numeric : option str -> option Q;
  to_datetime : list (option str) -> option str -> option Z;
  mean : list Q -> Q;
  median : list Q -> Q;
  unicode_lower : str -> str
}.

(* ================================================================== *)
(** ** Loader / cleaner *)
(* ================================================================== *)

Fixpoint span (p : char -> bool) (s : str) : str * str :=
  match s with
  | c :: s' =>
      if p c then let (a, b) := span p s' in (c :: a, b) else ([], s)
  | [] => ([], [])
  end.

Definition digits_value (ds : str) : N :=
  fold_left (fun acc c => (10 * acc + (c - 48))%N) ds 0%N.

Definition decimal (neg : bool) (ip fp : str) : Q :=
  let scale := (10 ^ N.of_nat (length fp))%N in
  let n := Z.of_N (digits_value ip * scale + digits_value fp) in
  ((if neg then inject_Z (- n) else inject_Z n) / inject_Z (Z.of_N scale))%Q.

(** The whitespace [float] skips around a literal. [float] first turns
    every whitespace character outside ASCII into a space and then skips
    what C's [isspace] accepts: tab to carriage return, and the space.
    The separators U+001C to U+001F, which [str.strip] and [\s] take for
    whitespace, are not skipped: [float] raises on them. *)
Definition float_space (c : char) : bool :=
  in_range 9 13 c || N.eqb c 32 || (N.leb 127 c && is_space c).

Definition float_strip (s : str) : str :=
  rev (snd (span float_space (rev (snd (span float_space s))))).

(** The number a [float] literal denotes: surrounding whitespace, a sign,
    digits with an optional fraction. [None] is [ValueError]. The other
    forms [float] reads (exponents, [inf], [nan], underscores, digits
    outside ASCII) need a character that a match of [value_pattern]
    cannot hold, and are answered [None] here. *)
Definition literal_value (text : str) : option Q :=
  let t := float_strip text in
  let (neg, body) :=
    match t with
    | 45%N :: r => (true, r)
    | 43%N :: r => (false, r)
    | _ => (false, t)
    end in
  let (ip, rest) := span is_digit body in
  match rest with
  | [] => match ip with [] => None | _ => Some (decimal neg ip []) end
  | 46%N :: fr =>
      let (fp, rest') := span is_digit fr in
      match rest', ip ++ fp with
      | [], _ :: _ => Some (decimal neg ip fp)
      | _, _ => None
      end
  | _ => None
  end.

Section Cleaning.
Context {RT : Runtime}.

(** [float(text)] *)
Definition float (text : str) : option Q :=
  option_map float_round (literal_value text).

(** [parse_value(x)], on the text [str(x)] of a cell; [None] as input
    is a missing cell ([pd.isna(x)]). *)
Definition parse_value (x : option str) : option Q :=
  match x with
  | None => None
  | Some raw =>
      let s := strip raw in
      match search value_pattern s with
      | None => None
      | Some (_, m, _) =>
          match float (sub comma_dollar_pattern [] m) with
          | None => None
          | Some val =>
              if Qle_bool val 0 || negb (Qle_bool val 500)
              then None
              else Some val
          end
      end
  end.
End Cleaning.

(** The runtime the examples are evaluated with: exact arithmetic in the
    place of floating point; a rating is read as a [float] literal and a
    date as a count of nanoseconds in digits; the median is the middle
    element of the column as it stands. *)
Definition exact_mean (l : list Q) : Q :=
  (fold_right Qplus 0 l / inject_Z (Z.of_nat (length l)))%Q.

Definition exact_runtime : Runtime := {|
  float_round := fun q => q;
  to_numeric := fun c =>
    match c with
    | Some s => literal_value s
    | None => None
    end;
  to_datetime := fun _ c =>
    match c with
    | Some (d :: s) =>
        if forallb is_digit (d :: s)
        then Some (Z.of_N (digits_value (d :: s)))
        else None
    | _ => None
    end;
  mean := exact_mean;
  median := fun l => nth (length l / 2) l 0%Q;
  unicode_lower := fun s => s
|}.


(** A row of the CSV file, each cell by its text ([None]: a missing
    cell), and the table with the one column that may be absent. *)
Record raw_row : Type := {
  raw_location : option str;
  raw_rating : option str;
  raw_value : option str;
  raw_time : option str;
  raw_comment : option str
}.

Record raw_table : Type := {
  has_comment : bool;
  raw_rows : list raw_row
}.

(** A row of the cleaned frame. The columns [Date] and [DayName] are
    computed from the timestamp once and never written again: they are
    the functions [Date] and [DayName] below. *)
Record row : Type := {
  Location : str;
  Rating : option Q;
  TransactionValue : option Q;
  TransactionDateTime : option Z;
  Comment : option str
}.

Definition ns_per_day : Z := 86400000000000.

(** [.dt.date], as the day number since 1970-01-01 *)
Definition Date (r : row) : option Z :=
  option_map (fun t => (t / ns_per_day)%Z) (TransactionDateTime r).

Definition day_names : list str :=
  map py ["Monday"; "Tuesday"; "Wednesday"; "Thursday"; "Friday";
          "Saturday"; "Sunday"]%string.

(** 1970-01-01 was a Thursday. *)
Definition day_name (t : Z) : str :=
  nth (Z.to_nat ((t / ns_per_day + 3) mod 7)) day_names [].

(** [.dt.day_name()] *)
Definition DayName (r : row) : option str :=
  option_map day_name (TransactionDateTime r).

(** [.astype(str)] on a cell already given by its text *)
Definition astype_str (c : option str) : str :=
  match c with Some s => s | None => py "nan" end.

(** [.str.strip().str.replace(r"\s+", " ", regex=True)] *)
Definition normalize_location (s : str) : str :=
  sub spaces_pattern (py " ") (strip s).

Definition is_some (A : Type) (o : option A) : bool :=
  match o with Some _ => true | None => false end.

Section Loader.
Context {RT : Runtime}.

Definition clean_row (t : raw_table) (r : raw_row) : row := {|
  Location := normalize_location (astype_str (raw_location r));
  Rating := to_numeric (raw_rating r);
  TransactionValue := parse_value (raw_value r);
  TransactionDateTime := to_datetime (map raw_time (raw_rows t)) (raw_time r);
  Comment := if has_comment t then raw_comment r else Some []
|}.

(** [dropna(subset=["Rating", "Transaction Value"])] *)
Definition dropna_rating_value (df : list row) : list row :=
  filter (fun r => is_some (Rating r) && is_some (TransactionValue r)) df.

Definition load_data (t : raw_table) : list row :=
  dropna_rating_value (map (clean_row t) (raw_rows t)).
End Loader.

(* ================================================================== *)
(** ** Word-frequency extractor *)
(* ================================================================== *)

Definition stop_words : list str :=
  map py ["the"; "and"; "to"; "of"; "a"; "in"; "for"; "with"; "is"; "it";
          "on"; "my"; "our"; "at"; "are"; "was"; "be"; "have"; "has";
          "that"; "they"; "this"; "i"; "we"; "you"; "their"; "as"; "so";
          "its"; "by"; "from"; "an"; "were"; "your"; "also"; "us";
          "had"]%string.

Definition ascii_lower (c : char) : char :=
  if in_range 65 90 c then (c + 32)%N else c.

(** [counts[w] = counts.get(w, 0) + 1] on a dict, which keeps its keys in
    the order of their first insertion. *)
Fixpoint bump (w : str) (counts : list (str * nat)) : list (str * nat) :=
  match counts with
  | [] => [(w, 1)]
  | (k, n) :: rest =>
      if str_eqb k w then (k, S n) :: rest else (k, n) :: bump w rest
  end.

(** A stable insertion sort: [before a b] says that [a] has to come
    strictly before [b]; elements that neither way are kept in the order
    of the input. *)
Section StableSort.
Variable A : Type.
Variable before : A -> A -> bool.

Fixpoint insert_sorted (x : A) (l : list A) : list A :=
  match l with
  | [] => [x]
  | y :: l' => if before y x then y :: insert_sorted x l' else x :: l
  end.

Fixpoint stable_sort (l : list A) : list A :=
  match l with
  | [] => []
  | x :: rest => insert_sorted x (stable_sort rest)
  end.
End StableSort.

(** [sorted(items, key=lambda x: x[1], reverse=True)]: larger counts
    first, equal counts in their order in [items]. *)
Definition sorted_desc (items : list (str * nat)) : list (str * nat) :=
  stable_sort (fun a b => snd b <? snd a) items.

(** [l[:n]] *)
Definition slice_to (A : Type) (n : Z) (l : list A) : list A :=
  if (n <? 0)%Z
  then firstn (length l - Z.to_nat (- n)) l
  else firstn (Z.to_nat n) l.

(** [series.dropna()] *)
Fixpoint dropna (A : Type) (col : list (option A)) : list A :=
  match col with
  | [] => []
  | Some a :: rest => a :: dropna rest
  | None :: rest => dropna rest
  end.

Section Words.
Context {RT : Runtime}.

(** [c.lower()]: on ASCII text the ASCII map, otherwise Unicode's. *)
Definition lower (s : str) : str :=
  if forallb (fun c => (c <? 128)%N) s then map ascii_lower s
  else unicode_lower s.

Definition qualifies (w : str) : bool :=
  negb (existsb (str_eqb w) stop_words) && (1 <? length w).

(** The two loops that fill [counts]. *)
Definition counts_of (comments : list str) : list (str * nat) :=
  fold_left
    (fun counts c =>
       fold_left
         (fun counts w => if qualifies w then bump w counts else counts)
         (findall word_pattern (lower c)) counts)
    comments [].

Definition top_words (series : list (option str)) (n : Z)
  : list str * list nat :=
  let counts := counts_of (dropna series) in
  let top_items := slice_to n (sorted_desc counts) in
  match top_items with
  | [] => ([], [])
  | _ => (map fst top_items, map snd top_items)
  end.
End Words.

(* ================================================================== *)
(** ** Formatting *)
(* ================================================================== *)

Fixpoint uint_chars (u : Decimal.uint) : str :=
  match u with
  | Decimal.Nil => []
  | Decimal.D0 u' => 48%N :: uint_chars u'
  | Decimal.D1 u' => 49%N :: uint_chars u'
  | Decimal.D2 u' => 50%N :: uint_chars u'
  | Decimal.D3 u' => 51%N :: uint_chars u'
  | Decimal.D4 u' => 52%N :: uint_chars u'
  | Decimal.D5 u' => 53%N :: uint_chars u'
  | Decimal.D6 u' => 54%N :: uint_chars u'
  | Decimal.D7 u' => 55%N :: uint_chars u'
  | Decimal.D8 u' => 56%N :: uint_chars u'
  | Decimal.D9 u' => 57%N :: uint_chars u'
  end.

Definition str_of_N (n : N) : str := uint_chars (N.to_uint n).

(** [str(n)] of an [int] *)
Definition str_of_Z (z : Z) : str :=
  if (z <? 0)%Z then 45%N :: str_of_N (Z.abs_N z) else str_of_N (Z.to_N z).

Definition str_of_nat (n : nat) : str := str_of_N (N.of_nat n).

Fixpoint commas_rev (i : nat) (ds : str) : str :=
  match ds with
  | [] => []
  | c :: rest =>
      (if (0 <? i) && (i mod 3 =? 0) then [44%N; c] else [c])
        ++ commas_rev (S i) rest
  end.

(** [f"{n:,}"] *)
Definition fmt_thousands (n : nat) : str :=
  rev (commas_rev 0 (rev (str_of_nat n))).

(** [f"{x:.2f}"]: the exact value rounded to two decimals, ties to even. *)
Definition fmt2 (q : Q) : str :=
  let n := Z.abs_N (Qnum q) in
  let d := Npos (Qden q) in
  let quo := (n * 100 / d)%N in
  let rem := (n * 100 mod d)%N in
  let r := if (d <? 2 * rem)%N || ((d =? 2 * rem)%N && N.odd quo)
           then (quo + 1)%N else quo in
  (if (Qnum q <? 0)%Z then [45%N] else [])
    ++ str_of_N (r / 100) ++ [46%N]
    ++ [(48 + r mod 100 / 10)%N; (48 + r mod 10)%N].

(* ================================================================== *)
(** ** Aggregator *)
(* ================================================================== *)

Definition Qlt_bool (a b : Q) : bool := negb (Qle_bool b a).

Section GroupBy.
Variable K : Type.
Variable cmp : K -> K -> comparison.

Fixpoint insert_key (k : K) (keys : list K) : list K :=
  match keys with
  | [] => [k]
  | x :: rest =>
      match cmp k x with
      | Lt => k :: keys
      | Eq => keys
      | Gt => x :: insert_key k rest
      end
  end.

(** The distinct keys in increasing order. *)
Definition sorted_unique (keys : list K) : list K :=
  fold_right insert_key [] keys.

Definition has_key (key : row -> option K) (k : K) (r : row) : bool :=
  match key r with
  | Some k' => match cmp k' k with Eq => true | _ => false end
  | None => false
  end.

(** [df.groupby(column)]: one group per distinct key, in key order, the
    rows of a group in their order in [df]; rows without a key belong
    to no group. *)
Definition groupby (key : row -> option K) (df : list row)
  : list (K * list row) :=
  map (fun k => (k, filter (has_key key k) df))
      (sorted_unique (dropna (map key df))).
End GroupBy.

Record loc_stats : Type := {
  avg_rating : Q;
  avg_txn : Q;
  count : nat
}.

Section Aggregates.
Context {RT : Runtime}.

(** [df["Rating"].mean()], which skips the nulls *)
Definition rating_mean (df : list row) : Q := mean (dropna (map Rating df)).
Definition txn_mean (df : list row) : Q :=
  mean (dropna (map TransactionValue df)).
Definition txn_median (df : list row) : Q :=
  median (dropna (map TransactionValue df)).

(** [df.groupby("Location").agg(avg_rating=("Rating", "mean"),
    avg_txn=("Transaction Value", "mean"), count=("Rating", "size"))] *)
Definition location_summary (df : list row) : list (str * loc_stats) :=
  map (fun g => (fst g, {| avg_rating := rating_mean (snd g);
                           avg_txn := txn_mean (snd g);
                           count := length (snd g) |}))
      (groupby str_compare (fun r => Some (Location r)) df).

(** [loc_summary[loc_summary["count"] >= 5]], [.query("count >= 5")] *)
Definition enough_samples (s : list (str * loc_stats)) : list (str * loc_stats) :=
  filter (fun e => 5 <=? count (snd e)) s.

(** [.sort_values("avg_rating")], ascending or not. pandas leaves the
    order of equal means open; the sort here keeps them as they were. *)
Definition sort_by_rating (ascending : bool) (s : list (str * loc_stats))
  : list (str * loc_stats) :=
  stable_sort
    (fun a b => if ascending
                then Qlt_bool (avg_rating (snd a)) (avg_rating (snd b))
                else Qlt_bool (avg_rating (snd b)) (avg_rating (snd a)))
    s.

(** [top_loc] and [bottom_loc] of [build_narrative] *)
Definition narrative_top_loc (df : list row) : list (str * loc_stats) :=
  firstn 1 (sort_by_rating false (enough_samples (location_summary df))).
Definition narrative_bottom_loc (df : list row) : list (str * loc_stats) :=
  firstn 1 (sort_by_rating true (enough_samples (location_summary df))).

(** [top_loc] of the page: the ten best locations *)
Definition top_loc (df : list row) : list (str * loc_stats) :=
  firstn 10 (sort_by_rating false (enough_samples (location_summary df))).

(** [df.groupby("DayName").agg(...)], the column [avg_txn] *)
Definition day_stats (df : list row) : list (str * Q) :=
  map (fun g => (fst g, txn_mean (snd g))) (groupby str_compare DayName df).

Fixpoint idxmax_from (k : str) (v : Q) (s : list (str * Q)) : str :=
  match s with
  | [] => k
  | (k', v') :: rest =>
      if Qlt_bool v v' then idxmax_from k' v' rest else idxmax_from k v rest
  end.

(** [series.idxmax()]: the label of the first largest value *)
Definition idxmax (s : list (str * Q)) : option str :=
  match s with
  | [] => None
  | (k, v) :: rest => Some (idxmax_from k v rest)
  end.
End Aggregates.

(* ================================================================== *)
(** ** Narrative builder *)
(* ================================================================== *)

Definition nl : str := [10%N].

Definition not_enough : str := py "locations with enough samples".

Definition filler : str :=
  py " Additional context: Sustained focus on consistency, friendliness, and speedy pickup remains the most reliable lever for keeping ratings high and tickets healthy. "
  ++ py "Track these measures weekly and pair them with small experiments on value offers during identified busy days to keep momentum.".

Definition action_points : str :=
  nl ++ nl ++ py "Action points:" ++ nl ++ nl
  ++ py "1) Double down on the behaviours praised most (warm greetings, coffee consistency) via quick shift briefings."
  ++ nl ++ nl
  ++ py "2) Where price or wait-time keywords appear, test a small set of value combos and speedier pickup flow on peak days."
  ++ nl ++ nl
  ++ py "3) Use the downloads to share cleaned data with store managers, and revisit the charts weekly to check whether interventions are shifting ratings and average tickets in the right direction. Together these steps keep the dashboard actionable while making the most of the cleaned dataset.".

Section Narrative.
Context {RT : Runtime}.

Definition loc_text (loc : list (str * loc_stats)) : str :=
  match loc with
  | (name, st) :: _ =>
      name ++ py " (avg rating " ++ fmt2 (avg_rating st) ++ py ")"
  | [] => not_enough
  end.

Definition busy_day (df : list row) : str :=
  match idxmax (day_stats df) with
  | Some d => d
  | None => py "the busier days"
  end.

Definition common_words (word_list : list str) : str :=
  match word_list with
  | [] => py "service, coffee"
  | _ => join (py ", ") (firstn 6 word_list)
  end.

Definition narrative_parts (df : list row) (base_len : Z)
           (words : list str) : list str :=
  [ py "This dashboard combines " ++ str_of_nat (length df)
    ++ py " feedback records (out of " ++ str_of_Z base_len
    ++ py " total). The filtered view currently shows an average rating of "
    ++ fmt2 (rating_mean df)
    ++ py " out of 5 with mean spend of \$" ++ fmt2 (txn_mean df)
    ++ py " and median spend of \$" ++ fmt2 (txn_median df)
    ++ py ", anchoring both satisfaction and revenue outcomes for the same customers.";
    py "Locations with enough feedback reveal variation worth attention: the current top performer on satisfaction is "
    ++ loc_text (narrative_top_loc df)
    ++ py ", while " ++ loc_text (narrative_bottom_loc df)
    ++ py " is the laggard. Ratings and spend move together modestly, suggesting experience improvements can drive ticket size. "
    ++ busy_day df
    ++ py " show the highest average ticket in this filtered view; scheduling stronger teams there could lift both throughput and sentiment.";
    py "Comments emphasise themes such as " ++ common_words words
    ++ py ". Positive clusters point to friendly staff and coffee quality, while repeat mentions of price or speed hint at friction moments. We also track rating distribution and spend by rating, plus daily trends to spot momentum rather than snapshots.";
    action_points ].

(** [" ".join(narrative_parts)] *)
Definition composed (df : list row) (base_len : Z) (words : list str) : str :=
  join (py " ") (narrative_parts df base_len words).

(** The length adjustment at the end of [build_narrative]. *)
Definition adjust_length (narrative : str) : str :=
  let n := words_count narrative in
  if 400 <? n then join (py " ") (firstn 400 (split narrative))
  else if n <? 250 then narrative ++ py " " ++ filler
  else narrative.

Definition build_narrative (df : list row) (base_len : Z)
           (words : list str) : str :=
  adjust_length (composed df base_len words).
End Narrative.

(* ================================================================== *)
(** ** The page *)
(* ================================================================== *)

(** What a chart is drawn from. *)
Inductive chart_data : Type :=
| RatingCounts (data : list (Q * nat))
| ValueByRating (data : list (Q * Q))
| DailyTrend (data : list (Z * (Q * Q)))
| TopLocations (data : list (str * loc_stats))
| TopWords (words : list str) (counts : list nat).

(** The Streamlit calls of one run of the script, in order. The bytes of
    the download are left as the frame they encode. *)
Inductive event : Type :=
| Title (text : str)
| SidebarHeader (text : str)
| Multiselect (label : str) (options : list str)
| Slider (label : str)
| DateInput (label : str) (min_value max_value : Z)
| DownloadButton (label : str) (data : list row)
| Warning (text : str)
| Columns (n : nat)
| Metric (label value : str)
| PlotlyChart (title : str) (data : chart_data)
| Markdown (text : str)
| Write (text : str).

(** What the widgets return in this run. [date_input] is given the range
    it was offered; it answers [None] unless two dates are selected. *)
Record selection : Type := {
  locations : list str;
  rating_range : Q * Q;
  date_input : Z -> Z -> option (Z * Z)
}.

(** A run of the script: the calls made so far, and a value unless
    [st.stop()] has ended the run. *)
Definition script (A : Type) : Type := list event * option A.

Definition ret (A : Type) (a : A) : script A := ([], Some a).

Definition bind (A B : Type) (m : script A) (f : A -> script B) : script B :=
  match m with
  | (ev, Some a) => let (ev', b) := f a in (ev ++ ev', b)
  | (ev, None) => (ev, None)
  end.

Definition emit (e : event) : script unit := ([e], Some tt).

(** [st.stop()] *)
Definition stop (A : Type) : script A := ([], None).

Notation "x <- m ;; k" := (bind m (fun x => k))
  (at level 61, m at next level, right associativity).
Notation "m ;; k" := (bind m (fun _ => k))
  (at level 61, right associativity).

Definition when (b : bool) (m : script unit) : script unit :=
  if b then m else ret tt.

Definition Zmin_list (l : list Z) : option Z :=
  match l with
  | [] => None
  | x :: rest => Some (fold_left Z.min rest x)
  end.

Definition Zmax_list (l : list Z) : option Z :=
  match l with
  | [] => None
  | x :: rest => Some (fold_left Z.max rest x)
  end.

Definition no_data : str :=
  py "No data after applying filters. Please broaden your selection.".

Section Page.
Context {RT : Runtime}.

Definition in_rating_range (lo hi : Q) (r : row) : bool :=
  match Rating r with
  | Some x => Qle_bool lo x && Qle_bool x hi
  | None => false
  end.

Definition in_date_range (d_start d_end : Z) (r : row) : bool :=
  match Date r with
  | Some d => (d_start <=? d)%Z && (d <=? d_end)%Z
  | None => false
  end.

(** The sidebar: its widgets, and the filtered frame. *)
Definition sidebar (df_full : list row) (ui : selection) : script (list row) :=
  emit (SidebarHeader (py "Filters"));;
  emit (Multiselect (py "Select locations")
                    (sorted_unique str_compare (map Location df_full)));;
  let df := match locations ui with
            | [] => df_full
            | _ => filter (fun r => existsb (str_eqb (Location r)) (locations ui))
                          df_full
            end in
  emit (Slider (py "Rating range"));;
  let df := filter (in_rating_range (fst (rating_range ui))
                                    (snd (rating_range ui))) df in
  df <- match Zmin_list (dropna (map TransactionDateTime df)),
              Zmax_list (dropna (map TransactionDateTime df)) with
        | Some t_min, Some t_max =>
            let min_date := (t_min / ns_per_day)%Z in
            let max_date := (t_max / ns_per_day)%Z in
            emit (DateInput (py "Date range") min_date max_date);;
            match date_input ui min_date max_date with
            | Some (d_start, d_end) =>
                ret (filter (in_date_range d_start d_end) df)
            | None => ret df
            end
        | _, _ => ret df
        end;;
  emit (DownloadButton (py "Download cleaned data (CSV)") df);;
  ret df.

Definition kpi_cards (df : list row) : script unit :=
  emit (Columns 4);;
  emit (Metric (py "Records") (fmt_thousands (length df)));;
  emit (Metric (py "Avg rating") (fmt2 (rating_mean df)));;
  emit (Metric (py "Avg transaction") (py "$" ++ fmt2 (txn_mean df)));;
  emit (Metric (py "Median transaction") (py "$" ++ fmt2 (txn_median df))).

Definition charts (df : list row) : script unit :=
  emit (PlotlyChart (py "Rating distribution")
          (RatingCounts (map (fun g => (fst g, length (snd g)))
                             (groupby Qcompare Rating df))));;
  emit (PlotlyChart (py "Average transaction value by rating")
          (ValueByRating (map (fun g => (fst g, txn_mean (snd g)))
                              (groupby Qcompare Rating df))));;
  when (existsb (fun r => is_some (Date r)) df)
       (emit (PlotlyChart (py "Daily trend: rating and spend")
                (DailyTrend (map (fun g => (fst g, (rating_mean (snd g),
                                                    txn_mean (snd g))))
                                 (groupby Z.compare Date df)))));;
  when (negb (length (top_loc df) =? 0))
       (emit (PlotlyChart (py "Top locations by average rating (>=5 responses)")
                (TopLocations (top_loc df)))).

(** The script from [st.title] on, for the frame [load_data] returned. *)
Definition page (df_full : list row) (ui : selection) : script unit :=
  emit (Title (py "Cafe Feedback Dashboard"));;
  df <- sidebar df_full ui;;
  when (length df =? 0) (emit (Warning no_data);; stop unit);;
  kpi_cards df;;
  charts df;;
  let (words, counts) := top_words (map Comment df) 12 in
  when (negb (length words =? 0))
       (emit (PlotlyChart (py "Top words in comments") (TopWords words counts)));;
  emit (Markdown (py "### AI-style summary and action points"));;
  emit (Write (build_narrative df (Z.of_nat (length df_full)) words)).

Definition main (t : raw_table) (ui : selection) : script unit :=
  page (load_data t) ui.
End Page.

(* ================================================================== *)
(** ** Vocabulary of the properties *)
(* ================================================================== *)

(** Two continuations agree on the texts of at most [n] characters; a
    matcher is extensional when it uses its continuation on no longer text
    than it was given. *)
Definition agree_below (A : Type) (n : nat) (k1 k2 : str -> option A) : Prop :=
  forall t, length t <= n -> k1 t = k2 t.

Definition extensional (A : Type)
           (body : str -> (str -> option A) -> option A) : Prop :=
  forall s k1 k2, agree_below (length s) k1 k2 -> body s k1 = body s k2.

(** No character of [s] is an ASCII digit. *)
Definition no_digit (s : str) : Prop := Forall (fun c => is_digit c = false) s.

(** The number of rows of [df] at the location [loc]. *)
Definition records_at (loc : str) (df : list row) : nat :=
  length (filter (fun r => str_eqb (Location r) loc) df).

(** The calls that show the data: the KPI cards and their columns, the
    charts, the narrative and its heading. *)
Definition shows_data (e : event) : bool :=
  match e with
  | Columns _ | Metric _ _ | PlotlyChart _ _ | Markdown _ | Write _ => true
  | _ => false
  end.

(** A run that shows nothing of the data. *)
Definition quiet (ev : list event) : Prop :=
  forallb (fun e => negb (shows_data e)) ev = true.

(** Runs of characters of the class [p] replaced by [repl], read left to
    right; [in_run] says that the previous character was of the class. *)
Fixpoint collapse_from (p : char -> bool) (repl : str) (in_run : bool)
         (s : str) : str :=
  match s with
  | [] => []
  | c :: s' =>
      if p c
      then (if in_run then [] else repl) ++ collapse_from p repl true s'
      else c :: collapse_from p repl false s'
  end.

(** Whitespace runs replaced by one space. *)
Definition collapse_spaces : bool -> str -> str :=
  collapse_from is_space (py " ").

(** The text is empty or starts with a character that is no whitespace. *)
Definition starts_clean (u : str) : Prop :=
  match u with
  | c :: _ => is_space c = false
  | [] => True
  end.

(** The text starts inside a word. *)
Definition starts_word (s : str) : bool :=
  match s with
  | c :: _ => negb (is_space c)
  | [] => false
  end.

(** The text is empty or ends with whitespace. *)
Definition ends_space (s : str) : bool := negb (starts_word (rev s)).

(** A word of [split]: not empty, no whitespace in it. *)
Definition is_word (w : str) : Prop :=
  w <> [] /\ Forall (fun c => is_space c = false) w.

(** The position of the first occurrence of [w] in [toks] (the length of
    [toks] when there is none), and the number of its occurrences. *)
Fixpoint first_seen (w : str) (toks : list str) : nat :=
  match toks with
  | [] => 0
  | x :: rest => if str_eqb x w then 0 else S (first_seen w rest)
  end.

Fixpoint occurrences (w : str) (toks : list str) : nat :=
  match toks with
  | [] => 0
  | x :: rest => (if str_eqb x w then 1 else 0) + occurrences w rest
  end.

(** The keys of the dict after one more token. *)
Definition add_key (keys : list str) (w : str) : list str :=
  if existsb (str_eqb w) keys then keys else keys ++ [w].

(** [counts.get(w, 0)] *)
Fixpoint lookup (w : str) (counts : list (str * nat)) : nat :=
  match counts with
  | [] => 0
  | (k, n) :: rest => if str_eqb k w then n else lookup w rest
  end.

Section WordsVocabulary.
Context {RT : Runtime}.

(** The tokens that are counted, in reading order. *)
Definition tokens (comments : list str) : list str :=
  flat_map (fun c => filter qualifies (findall word_pattern (lower c)))
           comments.
End WordsVocabulary.

(** The different words among [toks], each once. *)
Definition str_eq_dec : forall a b : str, {a = b} + {a <> b} :=
  list_eq_dec N.eq_dec.

Definition distinct (toks : list str) : list str := nodup str_eq_dec toks.

(** [a] is ranked before [b]: its count is not smaller, and on equal
    counts its word was seen first in [toks]. *)
Definition ranked (toks : list str) (a b : str * nat) : Prop :=
  snd b <= snd a
  /\ (snd a = snd b -> first_seen (fst a) toks < first_seen (fst b) toks).

(** A sample table: ratings of 0, -3 and 7, a rating that is no number,
    a date that does not parse, a value out of range, and two plain rows. *)
Definition sample_row (loc rating value time : String.string) : raw_row := {|
  raw_location := Some (py loc);
  raw_rating := Some (py rating);
  raw_value := Some (py value);
  raw_time := Some (py time);
  raw_comment := Some (py "Great coffee and great staff")
|}.
Arguments sample_row (loc rating value time)%_string.

Definition sample_table : raw_table := {|
  has_comment := true;
  raw_rows := [ sample_row "  Main   St " "0" "$12.50" "86400000000000";
                sample_row "Main St" "-3" "$ 7" "yesterday";
                sample_row "Oak" "7" "500" "0";
                sample_row "Oak" "five" "3.20" "0";
                sample_row "Oak" "4" "$999" "0";
                sample_row "Oak" "4.5" "$3.20" "0";
                sample_row "Main St" "4" "7.25" "172800000000000" ]
|}.

(** The selection of a fresh page: every location, every rating, the
    whole range of dates. *)
Definition open_selection : selection := {|
  locations := [];
  rating_range := (1%Q, 5%Q);
  date_input := fun d_min d_max => Some (d_min, d_max)
|}.

(** A selection that no row of [sample_table] meets. *)
Definition sample_selection : selection := {|
  locations := [py "Nowhere"];
  rating_range := (1%Q, 5%Q);
  date_input := fun d_min d_max => Some (d_min, d_max)
|}.

(** A frame for the ranking: five rows at "Main St" rated 3 and four
    rows at "Oak" rated 5. *)
Definition rated_row (loc : str) (rating : Q) : row := {|
  Location := loc;
  Rating := Some rating;
  TransactionValue := Some 10%Q;
  TransactionDateTime := None;
  Comment := Some []
|}.

Definition ranking_sample : list row :=
  repeat (rated_row (py "Main St") 3%Q) 5 ++ repeat (rated_row (py "Oak") 5%Q) 4.

(** Five rows at one location whose name has a hundred words. *)
Definition long_location : str := join (py " ") (repeat (py "cafe") 100).

Definition long_sample : list row := repeat (rated_row long_location 4%Q) 5.

(** ** Vocabulary of the further properties *)

(** The characters a match of [r] can hold. *)
Fixpoint alphabet (r : regex) (c : char) : bool :=
  match r with
  | Chr p => p c
  | Cat r1 r2 => alphabet r1 c || alphabet r2 c
  | Alt r1 r2 => alphabet r1 c || alphabet r2 c
  | Rep _ _ r1 => alphabet r1 c
  end.

(** The characters of a [float] literal that [parse_value] can build: a
    minus sign, whitespace, an ASCII digit, a decimal point. *)
Definition literal_char (c : char) : bool :=
  N.eqb c 45 || is_space c || is_digit c || N.eqb c 46.

(** The class [[a-zA-Z']] of [word_pattern]. *)
Definition word_char (c : char) : bool :=
  in_range 97 122 c || in_range 65 90 c || N.eqb c 39.

(** The match of [r] at the head of [s] holds characters of [r] only, and
    the continuation [k] answers [x] on the rest. *)
Definition matched (A : Type) (r : regex) (k : str -> option A) (s : str)
           (x : A) : Prop :=
  exists m rest,
    s = m ++ rest /\ Forall (fun c => alphabet r c = true) m /\ k rest = Some x.

(** The text [parse_value] hands to [float], when the pattern matches. *)
Definition float_argument (x : option str) : option str :=
  match x with
  | None => None
  | Some raw =>
      match search value_pattern (strip raw) with
      | None => None
      | Some (_, m, _) => Some (sub comma_dollar_pattern [] m)
      end
  end.

(** The sample table without its Comment column. *)
Definition bare_table : raw_table := {|
  has_comment := false;
  raw_rows := raw_rows sample_table
|}.

(** The row passes the location and the rating filters of the sidebar. *)
Definition selected (ui : selection) (r : row) : bool :=
  match locations ui with
  | [] => true
  | _ => existsb (str_eqb (Location r)) (locations ui)
  end
  && in_rating_range (fst (rating_range ui)) (snd (rating_range ui)) r.

(** The widget answers the range it was offered. *)
Definition keeps_offered_dates (ui : selection) : Prop :=
  forall d_min d_max, date_input ui d_min d_max = Some (d_min, d_max).

(* ================================================================== *)
(** * Properties *)
(* ================================================================== *)

(** ** The matcher has fuel enough *)

(** A quantifier is run with one unit of fuel more than the text is long,
    and every iteration has to shorten the text: with that much fuel or
    more the result is the same, so the matcher never stops for lack of
    fuel. *)
Section Fuel.
Variable A : Type.

Lemma iterate_ext (body : str -> (str -> option A) -> option A) :
  extensional body ->
  forall fuel lo hi s k1 k2,
    agree_below (length s) k1 k2 ->
    iterate body k1 fuel lo hi s = iterate body k2 fuel lo hi s.
Proof.
  intros Hb fuel. induction fuel as [|fuel IH]; intros lo hi s k1 k2 Hk;
    [reflexivity|].
  cbn [iterate].
  rewrite (Hk s (le_n _)).
  rewrite (Hb s _ (fun s' => if length s' <? length s
                             then iterate body k2 fuel (pred lo)
                                          (option_map pred hi) s'
                             else None)); [reflexivity|].
  intros t Ht. destruct (Nat.ltb_spec (length t) (length s)) as [L|L];
    [|reflexivity].
  apply IH. intros u Hu. apply Hk. lia.
Qed.

Lemma exec_extensional (r : regex) : extensional (@exec A r).
Proof.
  induction r as [p|r1 IH1 r2 IH2|r1 IH1 r2 IH2|lo hi r1 IH1];
    intros s k1 k2 Hk; cbn [exec].
  - destruct s as [|c s']; [reflexivity|].
    destruct (p c); [apply Hk; simpl; lia|reflexivity].
  - apply IH1. intros t Ht. apply IH2. intros u Hu. apply Hk. lia.
  - rewrite (IH1 s k1 k2 Hk), (IH2 s k1 k2 Hk). reflexivity.
  - apply iterate_ext; assumption.
Qed.

Lemma iterate_fuel (body : str -> (str -> option A) -> option A)
      (k : str -> option A) :
  extensional body ->
  forall f1 f2 lo hi s,
    length s < f1 -> length s < f2 ->
    iterate body k f1 lo hi s = iterate body k f2 lo hi s.
Proof.
  intros Hb f1. induction f1 as [|f1 IH]; intros f2 lo hi s H1 H2; [lia|].
  destruct f2 as [|f2]; [lia|]. cbn [iterate].
  rewrite (Hb s _ (fun s' => if length s' <? length s
                             then iterate body k f2 (pred lo)
                                          (option_map pred hi) s'
                             else None)); [reflexivity|].
  intros t Ht. destruct (Nat.ltb_spec (length t) (length s)) as [L|L];
    [|reflexivity].
  apply IH; lia.
Qed.

(** More fuel than [exec] gives a quantifier changes nothing. *)
Lemma exec_fuel (r : regex) (lo : nat) (hi : option nat) (s : str)
      (k : str -> option A) (extra : nat) :
  exec (Rep lo hi r) s k = iterate (exec r) k (S (length s) + extra) lo hi s.
Proof.
  cbn [exec]. apply iterate_fuel; [apply exec_extensional|lia|lia].
Qed.
End Fuel.

(** ** C1: the range of [parse_value] *)

(** The matcher fails where its continuation always fails: on the texts
    of a class [P] that is closed under dropping the first character. *)
Section MatcherFails.
Variable A : Type.
Variable P : str -> Prop.
Hypothesis P_tail : forall c s, P (c :: s) -> P s.

Lemma iterate_none (body : str -> (str -> option A) -> option A)
      (k : str -> option A) :
  (forall s k', P s -> (forall t, P t -> k' t = None) -> body s k' = None) ->
  (forall t, P t -> k t = None) ->
  forall fuel lo hi s, P s -> iterate body k fuel lo hi s = None.
Proof.
  intros Hbody Hk fuel.
  induction fuel as [|fuel IH]; intros lo hi s Hs; simpl; [reflexivity|].
  rewrite Hbody; auto.
  - destruct hi as [[|h]|]; destruct lo; auto.
  - intros t Ht. destruct (length t <? length s); auto.
Qed.

Lemma exec_none (r : regex) :
  forall s (k : str -> option A),
    P s -> (forall t, P t -> k t = None) -> exec r s k = None.
Proof.
  induction r as [p|r1 IH1 r2 IH2|r1 IH1 r2 IH2|lo hi r1 IH1];
    intros s k Hs Hk; cbn [exec].
  - destruct s as [|c s']; [reflexivity|].
    destruct (p c); [apply Hk; eauto|reflexivity].
  - apply IH1; auto.
  - rewrite IH1; auto.
  - apply iterate_none; auto.
Qed.
End MatcherFails.

Lemma no_digit_tail c s : no_digit (c :: s) -> no_digit s.
Proof. intros H; inversion H; assumption. Qed.

(** A quantifier that asks for a digit fails on a text without one. *)
Lemma digits_need_digit (A : Type) lo hi (k : str -> option A) s :
  no_digit s ->
  iterate (exec digit) k (S (length s)) (S lo) hi s = None.
Proof.
  intros Hs. cbn [exec iterate digit].
  destruct s as [|c s'].
  - destruct hi as [[|h]|]; reflexivity.
  - inversion Hs as [|? ? Hc _]; subst. rewrite Hc.
    destruct hi as [[|h]|]; reflexivity.
Qed.

Lemma value_pattern_needs_digit s :
  no_digit s -> match_here value_pattern s = None.
Proof.
  intros Hs. unfold match_here, value_pattern.
  cbn [exec].
  apply (@exec_none _ no_digit no_digit_tail); [assumption|]. intros t1 H1.
  apply (@exec_none _ no_digit no_digit_tail); [assumption|]. intros t2 H2.
  apply (@exec_none _ no_digit no_digit_tail); [assumption|]. intros t3 H3.
  cbn [exec]. unfold plus. cbn [exec].
  rewrite !digits_need_digit by assumption.
  reflexivity.
Qed.

Lemma search_value_pattern_none s :
  no_digit s -> search value_pattern s = None.
Proof.
  induction s as [|c s IH]; intros Hs; cbn [search];
    rewrite (value_pattern_needs_digit Hs); [reflexivity|].
  rewrite IH; [reflexivity|eapply no_digit_tail; eassumption].
Qed.

Lemma no_digit_lstrip s : no_digit s -> no_digit (lstrip s).
Proof.
  induction s as [|c s IH]; intros Hs; simpl; [assumption|].
  destruct (is_space c); [apply IH; eapply no_digit_tail; eassumption|assumption].
Qed.

Lemma no_digit_strip s : no_digit s -> no_digit (strip s).
Proof.
  intros Hs. unfold strip, rstrip, no_digit.
  apply Forall_rev. apply no_digit_lstrip. apply Forall_rev.
  apply no_digit_lstrip. assumption.
Qed.

Section ParseValue.
Context {RT : Runtime}.

Lemma parse_value_bounds x v :
  parse_value x = Some v -> (0 < v)%Q /\ (v <= 500)%Q.
Proof.
  unfold parse_value. destruct x as [raw|]; [|discriminate].
  destruct (search value_pattern (strip raw)) as [[[b m] a]|]; [|discriminate].
  destruct (float _) as [val|]; [|discriminate].
  destruct (Qle_bool val 0) eqn:E0; [discriminate|].
  destruct (Qle_bool val 500) eqn:E5; [|discriminate].
  simpl. intros H; injection H as <-. split.
  - apply Qnot_le_lt. intros C. apply Qle_bool_iff in C. congruence.
  - apply Qle_bool_iff. assumption.
Qed.

(** C1. [parse_value] answers null or a value in (0, 500], and it
    answers null for every text that holds no digit. *)
Theorem parse_value_range (x : option str) :
  (parse_value x = None \/
   exists v, parse_value x = Some v /\ (0 < v)%Q /\ (v <= 500)%Q)
  /\ (forall s, x = Some s -> no_digit s -> parse_value x = None).
Proof.
  split.
  - destruct (parse_value x) as [v|] eqn:E; [right|left; reflexivity].
    exists v. split; [reflexivity|]. apply parse_value_bounds with x. exact E.
  - intros s -> Hs. unfold parse_value.
    rewrite search_value_pattern_none; [reflexivity|].
    apply no_digit_strip. assumption.
Qed.
End ParseValue.

Lemma parse_value_range_witness :
  @parse_value exact_runtime (Some (py "abc")) = None.
Proof.
  apply (proj2 (@parse_value_range exact_runtime (Some (py "abc"))) (py "abc"));
    [reflexivity | repeat constructor].
Defined.

(** The cases the documentation gives, and two more: the match ends at the
    third digit of a number written without commas, and a sign apart from
    the digits makes [float] fail. *)
Example parse_value_examples :
  map (fun s => @parse_value exact_runtime (Some s))
      [py "$12.50"; py "-$5"; py "$999"; py "abc"; py "1500"; py "- 12"]
  = [Some 12.50%Q; None; None; None; Some 150%Q; None].
Proof. vm_compute. reflexivity. Qed.

(** The class [\s] takes the separator U+001F for whitespace and [float]
    does not: a cell with the separator between the dollar sign and the
    digit gives no value, whatever [float] rounds to; with a space in its
    place the value is read. *)
Example parse_value_separator :
  (forall RT : Runtime, parse_value (Some [36; 31; 55]%N) = None)
  /\ @parse_value exact_runtime (Some [36; 32; 55]%N) = Some 7%Q.
Proof. split; [intros RT|]; vm_compute; reflexivity. Qed.

(** ** C3, C10: what the cleaning keeps *)

Section LoaderFacts.
Context {RT : Runtime}.

Lemma is_some_true (A : Type) (o : option A) : is_some o = true <-> o <> None.
Proof. destruct o; simpl; split; congruence. Qed.

Lemma load_data_spec (t : raw_table) (r : row) :
  In r (load_data t) <->
  (exists raw, In raw (raw_rows t) /\ r = clean_row t raw)
  /\ Rating r <> None /\ TransactionValue r <> None.
Proof.
  unfold load_data, dropna_rating_value.
  rewrite filter_In, in_map_iff, andb_true_iff, !is_some_true.
  split.
  - intros [[raw [E H]] K]. split; [exists raw; auto|exact K].
  - intros [[raw [H E]] K]. split; [exists raw; auto|exact K].
Qed.

(** X1. The transaction value of a kept row is in (0, 500]. *)
Lemma load_data_value_range (t : raw_table) (r : row) :
  In r (load_data t) ->
  exists v, TransactionValue r = Some v /\ (0 < v)%Q /\ (v <= 500)%Q.
Proof.
  intros H. apply load_data_spec in H.
  destruct H as [[raw [_ E]] [_ Hv]]. subst r. simpl in *.
  destruct (parse_value (raw_value raw)) as [v|] eqn:P; [|congruence].
  exists v. split; [reflexivity|]. apply parse_value_bounds with (1 := P).
Qed.

(** C3. Every row that cleaning keeps has a rating and a transaction
    value; a row with both whose timestamp does not parse is kept, with
    a null timestamp. *)
Theorem load_data_required_fields (t : raw_table) :
  (forall r, In r (load_data t) ->
             Rating r <> None /\ TransactionValue r <> None)
  /\ (forall raw,
         In raw (raw_rows t) ->
         to_numeric (raw_rating raw) <> None ->
         parse_value (raw_value raw) <> None ->
         to_datetime (map raw_time (raw_rows t)) (raw_time raw) = None ->
         In (clean_row t raw) (load_data t)
         /\ TransactionDateTime (clean_row t raw) = None).
Proof.
  split.
  - intros r H. apply load_data_spec in H. tauto.
  - intros raw Hin Hr Hv Ht. split; [|exact Ht].
    apply load_data_spec. split; [exists raw; auto|]. split; assumption.
Qed.

(** C10. Cleaning does not look at the range of a rating: a row whose
    rating is any number and whose transaction value parses is kept
    with that rating; a row whose rating is no number is dropped. *)
Theorem load_data_keeps_any_rating (t : raw_table) (raw : raw_row) :
  In raw (raw_rows t) ->
  (forall x v,
      to_numeric (raw_rating raw) = Some x ->
      parse_value (raw_value raw) = Some v ->
      In (clean_row t raw) (load_data t)
      /\ Rating (clean_row t raw) = Some x
      /\ TransactionValue (clean_row t raw) = Some v)
  /\ (to_numeric (raw_rating raw) = None ->
      ~ In (clean_row t raw) (load_data t)).
Proof.
  intros Hin. split.
  - intros x v Hx Hv. split; [|split; assumption].
    apply load_data_spec. split; [exists raw; auto|].
    simpl. rewrite Hx, Hv. split; discriminate.
  - intros Hx H. apply load_data_spec in H.
    destruct H as [_ [H _]]. apply H. exact Hx.
Qed.
End LoaderFacts.

Lemma load_data_required_fields_witness :
  In (@clean_row exact_runtime sample_table
        (sample_row "Main St" "-3" "$ 7" "yesterday"))
     (@load_data exact_runtime sample_table)
  /\ TransactionDateTime
       (@clean_row exact_runtime sample_table
          (sample_row "Main St" "-3" "$ 7" "yesterday")) = None.
Proof.
  apply (proj2 (@load_data_required_fields exact_runtime sample_table)).
  - simpl. auto.
  - vm_compute. discriminate.
  - vm_compute. discriminate.
  - vm_compute. reflexivity.
Defined.

Lemma load_data_keeps_any_rating_witness :
  (In (@clean_row exact_runtime sample_table
         (sample_row "  Main   St " "0" "$12.50" "86400000000000"))
      (@load_data exact_runtime sample_table)
   /\ In (@clean_row exact_runtime sample_table
            (sample_row "Main St" "-3" "$ 7" "yesterday"))
         (@load_data exact_runtime sample_table))
  /\ In (@clean_row exact_runtime sample_table (sample_row "Oak" "7" "500" "0"))
        (@load_data exact_runtime sample_table).
Proof.
  repeat split.
  - refine (proj1 (proj1 (@load_data_keeps_any_rating exact_runtime sample_table
        (sample_row "  Main   St " "0" "$12.50" "86400000000000") _)
        0%Q 12.50%Q _ _)); [simpl; auto | vm_compute; reflexivity ..].
  - refine (proj1 (proj1 (@load_data_keeps_any_rating exact_runtime sample_table
        (sample_row "Main St" "-3" "$ 7" "yesterday") _)
        (-3)%Q 7%Q _ _)); [simpl; auto 10 | vm_compute; reflexivity ..].
  - refine (proj1 (proj1 (@load_data_keeps_any_rating exact_runtime sample_table
        (sample_row "Oak" "7" "500" "0") _)
        7%Q 500%Q _ _)); [simpl; auto 10 | vm_compute; reflexivity ..].
Defined.

(** ** C8: the worked example of the word extractor *)

(** C8. On the comments "Great coffee and great staff" and "Great staff"
    the first word is "great" with count 3 (then "staff" 2, "coffee" 1). *)
Theorem top_words_example (RT : Runtime) :
  top_words [Some (py "Great coffee and great staff"); Some (py "Great staff")] 12
  = ([py "great"; py "staff"; py "coffee"], [3; 2; 1]).
Proof. vm_compute. reflexivity. Qed.

(** ** C9: the empty selection *)

Section PageFacts.
Context {RT : Runtime}.

(** The sidebar never stops the run, and shows no figure. *)
Lemma sidebar_runs (df_full : list row) (ui : selection) :
  exists ev df, sidebar df_full ui = (ev, Some df) /\ quiet ev.
Proof.
  unfold quiet. cbv beta iota zeta delta [sidebar bind emit ret].
  destruct (Zmin_list _) as [t_min|];
    [destruct (Zmax_list _) as [t_max|];
     [destruct (date_input ui _ _) as [[d_start d_end]|]|]|];
    cbn; eexists; eexists; split; reflexivity.
Qed.

Lemma page_empty (df_full : list row) (ui : selection) (ev : list event) :
  sidebar df_full ui = (ev, Some []) ->
  page df_full ui = (Title (py "Cafe Feedback Dashboard") :: ev ++ [Warning no_data], None).
Proof.
  intros E. unfold page. rewrite E. reflexivity.
Qed.

(** C9. When the filters leave no row, the run shows the warning and is
    ended by [st.stop()]: no KPI card, chart or narrative is produced. *)
Theorem empty_selection_stops (t : raw_table) (ui : selection) :
  snd (sidebar (load_data t) ui) = Some [] ->
  snd (main t ui) = None
  /\ exists ev, fst (main t ui) = ev ++ [Warning no_data] /\ quiet ev.
Proof.
  intros H. unfold main.
  destruct (sidebar_runs (load_data t) ui) as [ev [df [E Q]]].
  rewrite E in H. simpl in H. injection H as ->.
  rewrite (page_empty _ _ E). split; [reflexivity|].
  exists (Title (py "Cafe Feedback Dashboard") :: ev).
  split; [reflexivity|]. exact Q.
Qed.

End PageFacts.

Lemma empty_selection_stops_witness :
  snd (@main exact_runtime sample_table sample_selection) = None
  /\ exists ev,
      fst (@main exact_runtime sample_table sample_selection)
      = ev ++ [Warning no_data] /\ quiet ev.
Proof.
  apply (@empty_selection_stops exact_runtime sample_table sample_selection).
  vm_compute. reflexivity.
Defined.

(** With rows left the run goes on: on the sample table and a fresh page
    it ends with the narrative. *)
Example open_selection_completes :
  snd (@main exact_runtime sample_table open_selection) = Some tt
  /\ match last (fst (@main exact_runtime sample_table open_selection)) (Title [])
     with
     | Write text => words_count text = 275
     | _ => False
     end.
Proof. vm_compute. split; reflexivity. Qed.

(** ** C7: the five-record threshold of the location ranking *)

Lemma str_compare_eqb (a b : str) :
  match str_compare a b with Eq => true | _ => false end = str_eqb a b.
Proof.
  revert b. induction a as [|x a IH]; intros [|y b]; simpl; try reflexivity.
  unfold char_eqb. destruct (N.compare_spec x y) as [E|L|G].
  - subst. rewrite N.eqb_refl. apply IH.
  - replace (x =? y)%N with false; [reflexivity|].
    symmetry. apply N.eqb_neq. lia.
  - replace (x =? y)%N with false; [reflexivity|].
    symmetry. apply N.eqb_neq. lia.
Qed.

Lemma str_eqb_eq (a b : str) : str_eqb a b = true <-> a = b.
Proof.
  revert b. induction a as [|x a IH]; intros [|y b]; simpl;
    try (split; congruence).
  unfold char_eqb. rewrite andb_true_iff, N.eqb_eq, IH.
  split; [intros [-> ->]; reflexivity|intros H; injection H; auto].
Qed.

Section SortFacts.
Variable A : Type.
Variable before : A -> A -> bool.

Lemma insert_sorted_In (x y : A) (l : list A) :
  In y (insert_sorted before x l) <-> y = x \/ In y l.
Proof.
  induction l as [|z l IH]; simpl.
  - intuition congruence.
  - destruct (before z x); simpl; rewrite ?IH; intuition congruence.
Qed.

Lemma stable_sort_In (y : A) (l : list A) :
  In y (stable_sort before l) <-> In y l.
Proof.
  induction l as [|x l IH]; simpl; [tauto|].
  rewrite insert_sorted_In, IH. intuition congruence.
Qed.
End SortFacts.

Lemma In_firstn (A : Type) (n : nat) (x : A) (l : list A) :
  In x (firstn n l) -> In x l.
Proof.
  revert l. induction n as [|n IH]; intros [|y l]; simpl; try tauto.
  intros [H|H]; [left; exact H|right; apply IH; exact H].
Qed.

Section RankingFacts.
Context {RT : Runtime}.

(** The [count] of a location in the summary is the number of its rows. *)
Lemma location_summary_count (df : list row) (loc : str) (st : loc_stats) :
  In (loc, st) (location_summary df) -> count st = records_at loc df.
Proof.
  unfold location_summary, groupby. rewrite map_map, in_map_iff.
  intros [k [E _]]. simpl in E. injection E as <- <-. simpl.
  unfold records_at. f_equal. apply filter_ext. intros r.
  unfold has_key. apply str_compare_eqb.
Qed.

Lemma ranked_has_enough (df : list row) (asc : bool) (n : nat) (loc : str) :
  In loc (map fst (firstn n (sort_by_rating asc
                               (enough_samples (location_summary df))))) ->
  5 <= records_at loc df.
Proof.
  rewrite in_map_iff. intros [[k st] [E H]]. simpl in E. subst k.
  apply In_firstn in H. unfold sort_by_rating in H.
  apply stable_sort_In in H. unfold enough_samples in H.
  apply filter_In in H. destruct H as [H C]. simpl in C.
  apply location_summary_count in H. rewrite <- H.
  apply Nat.leb_le. exact C.
Qed.

(** C7. A location with fewer than five rows is in none of the ranking
    outputs: the top and the bottom location of the narrative, and the
    ten locations of the chart. *)
Theorem few_records_never_ranked (df : list row) (loc : str) :
  records_at loc df < 5 ->
  ~ In loc (map fst (narrative_top_loc df))
  /\ ~ In loc (map fst (narrative_bottom_loc df))
  /\ ~ In loc (map fst (top_loc df)).
Proof.
  intros H. unfold narrative_top_loc, narrative_bottom_loc, top_loc.
  repeat split; intros C; apply ranked_has_enough in C; lia.
Qed.
End RankingFacts.

Lemma few_records_never_ranked_witness :
  ~ In (py "Oak") (map fst (@narrative_top_loc exact_runtime ranking_sample))
  /\ ~ In (py "Oak") (map fst (@narrative_bottom_loc exact_runtime ranking_sample))
  /\ ~ In (py "Oak") (map fst (@top_loc exact_runtime ranking_sample)).
Proof.
  apply (@few_records_never_ranked exact_runtime ranking_sample (py "Oak")).
  vm_compute. lia.
Defined.

(** In that frame "Oak" has the better ratings and four rows: the ranking
    holds "Main St" alone. *)
Example ranking_sample_outputs :
  records_at (py "Oak") ranking_sample = 4
  /\ map fst (@narrative_top_loc exact_runtime ranking_sample) = [py "Main St"]
  /\ map fst (@narrative_bottom_loc exact_runtime ranking_sample) = [py "Main St"]
  /\ map fst (@top_loc exact_runtime ranking_sample) = [py "Main St"].
Proof. vm_compute. repeat split. Qed.

(** ** C6: location normalisation *)

(** *** The scan with a one-class pattern [[p]+] *)

Section ClassRuns.
Variable p : char -> bool.

Lemma span_length (s : str) :
  length (fst (span p s)) + length (snd (span p s)) = length s.
Proof.
  induction s as [|c s IH]; simpl; [reflexivity|].
  destruct (p c); [|reflexivity].
  destruct (span p s) as [a b]. simpl in *. lia.
Qed.

Lemma iterate_class_star (fuel : nat) :
  forall s, length s < fuel ->
            iterate (exec (Chr p)) (fun rest => Some rest) fuel 0 None s
            = Some (snd (span p s)).
Proof.
  induction fuel as [|fuel IH]; intros s Hs; [lia|].
  destruct s as [|c s']; [reflexivity|].
  cbn [iterate exec option_map Nat.pred]. simpl span.
  destruct (p c); [|reflexivity].
  replace (length s' <? length (c :: s')) with true
    by (symmetry; apply Nat.ltb_lt; simpl; lia).
  rewrite IH by (simpl in Hs; lia).
  destruct (span p s') as [a b]. reflexivity.
Qed.

Lemma match_here_class_plus (s : str) :
  match_here (plus (Chr p)) s
  = match s with
    | c :: s' => if p c then Some (snd (span p s')) else None
    | [] => None
    end.
Proof.
  unfold match_here, plus. cbn [exec].
  destruct s as [|c s']; [reflexivity|].
  cbn [iterate exec option_map Nat.pred].
  destruct (p c); [|reflexivity].
  replace (length s' <? length (c :: s')) with true
    by (symmetry; apply Nat.ltb_lt; simpl; lia).
  apply iterate_class_star. simpl. lia.
Qed.

Lemma match_length_class_plus (c : char) (s : str) :
  match_length (plus (Chr p)) (c :: s)
  = if p c then Some (S (length (fst (span p s)))) else None.
Proof.
  unfold match_length. rewrite match_here_class_plus.
  destruct (p c); [|reflexivity].
  pose proof (span_length s) as L.
  replace (length (snd (span p s)) <? length (c :: s)) with true
    by (symmetry; apply Nat.ltb_lt; simpl; lia).
  f_equal. simpl length. lia.
Qed.

Variable repl : str.

Lemma sub_from_class_plus (s : str) :
  sub_from (plus (Chr p)) repl 0 s = collapse_from p repl false s
  /\ sub_from (plus (Chr p)) repl (length (fst (span p s))) s
     = collapse_from p repl true s.
Proof.
  induction s as [|c s [IHa IHb]]; [split; reflexivity|].
  assert (Ha : sub_from (plus (Chr p)) repl 0 (c :: s)
               = collapse_from p repl false (c :: s)).
  { cbn [sub_from]. rewrite match_length_class_plus.
    cbn [collapse_from]. destruct (p c).
    - replace (S (length (fst (span p s))) - 1) with (length (fst (span p s)))
        by lia.
      rewrite IHb. reflexivity.
    - rewrite IHa. reflexivity. }
  split; [exact Ha|].
  simpl span. destruct (p c) eqn:E.
  - destruct (span p s) as [a b] eqn:Es. simpl fst in *. simpl length.
    cbn [sub_from collapse_from]. rewrite E. exact IHb.
  - simpl fst. simpl length. rewrite Ha.
    cbn [collapse_from]. rewrite E. reflexivity.
Qed.

(** [re.sub] with the pattern [[p]+] replaces each run of the class. *)
Lemma sub_class_plus (s : str) :
  sub (plus (Chr p)) repl s = collapse_from p repl false s.
Proof. apply sub_from_class_plus. Qed.
End ClassRuns.

(** *** Trimmed text *)

Lemma lstrip_starts_clean (s : str) : starts_clean (lstrip s).
Proof.
  induction s as [|c s IH]; simpl; [exact I|].
  destruct (is_space c) eqn:E; [exact IH|exact E].
Qed.

Lemma lstrip_id (u : str) : starts_clean u -> lstrip u = u.
Proof. destruct u as [|c u]; simpl; [reflexivity|]. intros ->. reflexivity. Qed.

Lemma lstrip_app_nonspace (x y : str) (c : char) :
  is_space c = false -> lstrip (x ++ c :: y) = lstrip x ++ c :: y.
Proof.
  intros Hc. induction x as [|d x IH]; simpl; [rewrite Hc; reflexivity|].
  destruct (is_space d); [exact IH|reflexivity].
Qed.

Lemma rstrip_starts_clean (t : str) : starts_clean t -> starts_clean (rstrip t).
Proof.
  destruct t as [|c t]; [intros _; exact I|]. simpl. intros Hc.
  unfold rstrip. simpl rev. rewrite lstrip_app_nonspace by exact Hc.
  rewrite rev_app_distr. simpl. exact Hc.
Qed.

Lemma strip_trimmed (s : str) :
  starts_clean (strip s) /\ starts_clean (rev (strip s)).
Proof.
  unfold strip. split.
  - apply rstrip_starts_clean, lstrip_starts_clean.
  - unfold rstrip. rewrite rev_involutive. apply lstrip_starts_clean.
Qed.

Lemma strip_id (u : str) :
  starts_clean u -> starts_clean (rev u) -> strip u = u.
Proof.
  intros H1 H2. unfold strip, rstrip.
  rewrite (lstrip_id _ H1), (lstrip_id _ H2). apply rev_involutive.
Qed.

(** *** Collapsing the whitespace runs *)

Lemma collapse_spaces_idem (s : str) :
  forall b, collapse_spaces b (collapse_spaces b s) = collapse_spaces b s.
Proof.
  unfold collapse_spaces.
  induction s as [|c s IH]; intros b; [reflexivity|].
  cbn [collapse_from]. destruct (is_space c) eqn:E.
  - destruct b; cbn [app].
    + apply IH.
    + change (py " ") with [32%N]. cbn [app collapse_from].
      change (is_space 32%N) with true. cbn [app]. rewrite IH. reflexivity.
  - cbn [collapse_from]. rewrite E, IH. reflexivity.
Qed.

Lemma collapse_spaces_snoc (x : str) (c : char) :
  is_space c = false ->
  forall b, collapse_spaces b (x ++ [c]) = collapse_spaces b x ++ [c].
Proof.
  intros Hc. unfold collapse_spaces.
  induction x as [|d x IH]; intros b; cbn [app collapse_from].
  - rewrite Hc. reflexivity.
  - destruct (is_space d); rewrite IH; [|reflexivity].
    rewrite app_assoc. reflexivity.
Qed.

Lemma collapse_spaces_trimmed (t : str) :
  starts_clean t -> starts_clean (rev t) ->
  starts_clean (collapse_spaces false t)
  /\ starts_clean (rev (collapse_spaces false t)).
Proof.
  intros H1 H2. split.
  - destruct t as [|c t]; [exact I|]. simpl in H1.
    unfold collapse_spaces. cbn [collapse_from]. rewrite H1. exact H1.
  - destruct (rev t) as [|c r] eqn:E.
    + apply (f_equal (@rev char)) in E. rewrite rev_involutive in E.
      subst t. exact I.
    + apply (f_equal (@rev char)) in E. rewrite rev_involutive in E.
      simpl in E. subst t. simpl in H2.
      rewrite (@collapse_spaces_snoc (rev r) c H2), rev_app_distr. exact H2.
Qed.

Lemma normalize_location_collapse (s : str) :
  normalize_location s = collapse_spaces false (strip s).
Proof. apply sub_class_plus. Qed.

(** C6. Normalising a location twice is normalising it once, and
    "  Main   St " becomes "Main St". *)
Theorem normalize_location_idempotent :
  (forall s, normalize_location (normalize_location s) = normalize_location s)
  /\ normalize_location (astype_str (Some (py "  Main   St "))) = py "Main St".
Proof.
  split; [|vm_compute; reflexivity].
  intros s. rewrite !normalize_location_collapse.
  destruct (strip_trimmed s) as [H1 H2].
  destruct (collapse_spaces_trimmed _ H1 H2) as [K1 K2].
  rewrite (strip_id _ K1 K2). apply collapse_spaces_idem.
Qed.

(** ** C2, C4: the length of the narrative *)

(** *** Counting words *)

Lemma words_count_cons (c : char) (s : str) :
  words_count (c :: s)
  = if is_space c then words_count s
    else if starts_word s then words_count s else S (words_count s).
Proof.
  unfold words_count, split. simpl scan_words.
  destruct s as [|d s']; simpl.
  - destruct (is_space c); reflexivity.
  - destruct (scan_words s') as [w ws].
    destruct (is_space c), (is_space d); simpl; try reflexivity;
      destruct w; reflexivity.
Qed.

Lemma starts_word_app (x y : str) :
  starts_word (x ++ y) = match x with [] => starts_word y | _ => starts_word x end.
Proof. destruct x; reflexivity. Qed.

(** Across a whitespace character the counts add up. *)
Lemma words_count_app_space (x y : str) (c : char) :
  is_space c = true ->
  words_count (x ++ c :: y) = words_count x + words_count y.
Proof.
  intros Hc. induction x as [|d x IH].
  - simpl app. rewrite words_count_cons, Hc. reflexivity.
  - simpl app. rewrite !words_count_cons, IH, starts_word_app.
    destruct (is_space d); [reflexivity|].
    destruct x as [|e x]; simpl starts_word.
    + rewrite Hc. reflexivity.
    + destruct (negb (is_space e)); reflexivity.
Qed.

Lemma words_count_app_ge_r (x y : str) :
  words_count y <= words_count (x ++ y).
Proof.
  induction x as [|d x IH]; [apply le_n|].
  simpl app. rewrite words_count_cons.
  destruct (is_space d); [exact IH|].
  destruct (starts_word (x ++ y)); lia.
Qed.

Lemma words_count_app_ge (x y : str) :
  words_count x + words_count y <= S (words_count (x ++ y)).
Proof.
  induction x as [|d x IH]; [simpl; lia|].
  simpl app. rewrite !words_count_cons, starts_word_app.
  destruct (is_space d); [exact IH|].
  destruct x as [|e x].
  - simpl app in *. simpl starts_word. 
    change (words_count []) with 0. destruct (starts_word y); lia.
  - destruct (starts_word (e :: x)); lia.
Qed.

Lemma words_count_app_le (x y : str) :
  words_count (x ++ y) <= words_count x + words_count y.
Proof.
  induction x as [|d x IH]; [simpl; lia|].
  simpl app. rewrite !words_count_cons, starts_word_app.
  destruct (is_space d); [exact IH|].
  destruct x as [|e x].
  - simpl app in *. simpl starts_word.
    change (words_count []) with 0. destruct (starts_word y); lia.
  - destruct (starts_word (e :: x)); lia.
Qed.

Lemma words_count_app_ends_space (x y : str) :
  ends_space x = true ->
  words_count (x ++ y) = words_count x + words_count y.
Proof.
  unfold ends_space. intros H.
  destruct (rev x) as [|c r] eqn:E.
  - apply (f_equal (@rev char)) in E. rewrite rev_involutive in E.
    subst x. reflexivity.
  - apply (f_equal (@rev char)) in E. rewrite rev_involutive in E.
    simpl in E. subst x. simpl in H.
    assert (Hc : is_space c = true) by (destruct (is_space c); auto).
    rewrite <- app_assoc. simpl app.
    rewrite (words_count_app_space (rev r) y c Hc).
    rewrite (words_count_app_space (rev r) [] c Hc).
    change (words_count []) with 0. lia.
Qed.

(** The three steps of a lower bound along a text in pieces. *)
Lemma bound_after_spaced (x y : str) (n m : nat) :
  ends_space x = true -> n - words_count x = m ->
  m <= words_count y -> n <= words_count (x ++ y).
Proof. intros E <- H. rewrite (words_count_app_ends_space _ _ E). lia. Qed.

Lemma bound_after_joined (x y : str) (n m : nat) :
  S n - words_count x = m ->
  m <= words_count y -> n <= words_count (x ++ y).
Proof. intros <- H. pose proof (words_count_app_ge x y). lia. Qed.

Lemma bound_after_any (x y : str) (n : nat) :
  n <= words_count y -> n <= words_count (x ++ y).
Proof. intros H. pose proof (words_count_app_ge_r x y). lia. Qed.

(** *** Splitting a text that was joined with spaces *)

Lemma scan_words_is_word (s : str) :
  Forall (fun c => is_space c = false) (fst (scan_words s))
  /\ Forall is_word (snd (scan_words s)).
Proof.
  induction s as [|c s [IH1 IH2]]; simpl; [split; constructor|].
  destruct (scan_words s) as [w ws]. simpl in *.
  destruct (is_space c) eqn:E; simpl; split; auto.
  destruct w as [|d w]; simpl; [exact IH2|].
  constructor; [split; [discriminate|exact IH1]|exact IH2].
Qed.

Lemma split_is_word (s : str) : Forall is_word (split s).
Proof.
  unfold split. destruct (scan_words_is_word s) as [H1 H2].
  destruct (scan_words s) as [w ws]. simpl in *.
  destruct w as [|d w]; simpl; [exact H2|].
  constructor; [split; [discriminate|exact H1]|exact H2].
Qed.

Lemma scan_words_app_word (w y : str) :
  Forall (fun c => is_space c = false) w ->
  scan_words (w ++ y) = (w ++ fst (scan_words y), snd (scan_words y)).
Proof.
  induction 1 as [|c w Hc _ IH]; simpl.
  - destruct (scan_words y); reflexivity.
  - rewrite IH, Hc. reflexivity.
Qed.

Lemma split_join_words (ws : list str) :
  Forall is_word ws -> split (join (py " ") ws) = ws.
Proof.
  induction 1 as [|w ws [Hne Hw] _ IH]; [reflexivity|].
  destruct ws as [|w2 ws].
  - simpl join. unfold split.
    rewrite <- (app_nil_r w) at 1. rewrite (scan_words_app_word [] Hw).
    simpl. rewrite (app_nil_r w). destruct w; [congruence|reflexivity].
  - change (join (py " ") (w :: w2 :: ws))
      with (w ++ 32%N :: join (py " ") (w2 :: ws)).
    set (J := join (py " ") (w2 :: ws)) in *.
    unfold split in *. rewrite (scan_words_app_word _ Hw).
    cbn [scan_words]. change (is_space 32%N) with true.
    destruct (scan_words J) as [v vs].
    cbn [fst snd]. rewrite (app_nil_r w), IH.
    destruct w; [congruence|reflexivity].
Qed.

Lemma Forall_firstn (A : Type) (P : A -> Prop) (n : nat) (l : list A) :
  Forall P l -> Forall P (firstn n l).
Proof.
  intros H. revert n. induction H as [|x l Hx _ IH]; intros [|n]; simpl;
    constructor; auto.
Qed.

(** *** The length adjustment *)

Lemma filler_words : words_count filler = 42.
Proof. vm_compute. reflexivity. Qed.

Lemma adjust_length_spec (t : str) :
  (400 < words_count t ->
   adjust_length t = join (py " ") (firstn 400 (split t))
   /\ split (adjust_length t) = firstn 400 (split t)
   /\ words_count (adjust_length t) = 400)
  /\ (words_count t < 250 ->
      adjust_length t = t ++ py " " ++ filler
      /\ words_count (adjust_length t) = words_count t + 42)
  /\ (250 <= words_count t <= 400 -> adjust_length t = t).
Proof.
  assert (Hcut : split (join (py " ") (firstn 400 (split t)))
                 = firstn 400 (split t))
    by apply split_join_words, Forall_firstn, split_is_word.
  assert (Hfill : words_count (t ++ py " " ++ filler) = words_count t + 42).
  { pose proof (words_count_app_space t filler 32%N eq_refl) as E.
    rewrite filler_words in E. exact E. }
  unfold adjust_length.
  destruct (Nat.ltb_spec 400 (words_count t)) as [E4|E4];
    destruct (Nat.ltb_spec (words_count t) 250) as [E2|E2];
    (split; [|split]); intros H; try lia.
  - split; [reflexivity|]. split; [exact Hcut|].
    unfold words_count at 1. rewrite Hcut.
    apply firstn_length_le. unfold words_count in E4. lia.
  - split; [reflexivity|exact Hfill].
  - reflexivity.
Qed.

Lemma adjust_length_bounds (t : str) :
  208 <= words_count t -> 250 <= words_count (adjust_length t) <= 400.
Proof.
  intros H. destruct (adjust_length_spec t) as [Hhi [Hlo Hmid]].
  destruct (Nat.lt_ge_cases 400 (words_count t)) as [C|C].
  - destruct (Hhi C) as [_ [_ ->]]. lia.
  - destruct (Nat.lt_ge_cases (words_count t) 250) as [D|D].
    + destruct (Hlo D) as [_ ->]. lia.
    + rewrite Hmid; lia.
Qed.

(** *** The words of the template *)

Ltac bound_spaced :=
  lazymatch goal with
  | |- ?n <= words_count (?x ++ ?y) =>
      let m := eval vm_compute in (n - words_count x) in
      apply (@bound_after_spaced x y n m);
      [vm_compute; reflexivity | vm_compute; reflexivity | ]
  end.

Ltac bound_joined :=
  lazymatch goal with
  | |- ?n <= words_count (?x ++ ?y) =>
      let m := eval vm_compute in (S n - words_count x) in
      apply (@bound_after_joined x y n m); [vm_compute; reflexivity | ]
  end.

(** One piece of the text: a literal counts its words, one less when a
    word may go on into the next piece; any other piece counts nothing. *)
Ltac bound_step :=
  lazymatch goal with
  | |- _ <= words_count (py _ ++ _) => first [bound_spaced | bound_joined]
  | |- _ <= words_count (_ ++ _) => apply bound_after_any
  end.

Section NarrativeFacts.
Context {RT : Runtime}.

(** The literal text of the template alone gives 216 words, whatever
    the frame, the base length and the word list are. *)
Lemma composed_words (df : list row) (base_len : Z) (words : list str) :
  216 <= words_count (composed df base_len words).
Proof.
  unfold composed, narrative_parts. cbn [join].
  rewrite <- !app_assoc.
  repeat bound_step.
  apply Nat.leb_le. vm_compute. reflexivity.
Qed.

Lemma build_narrative_words (df : list row) (base_len : Z) (words : list str) :
  250 <= words_count (build_narrative df base_len words) <= 400.
Proof.
  apply adjust_length_bounds.
  pose proof (composed_words df base_len words). lia.
Qed.

(** C2. For a frame with a record and a positive base length the
    narrative has between 250 and 400 words. *)
Theorem build_narrative_word_count
        (df : list row) (base_len : Z) (words : list str) :
  (0 < base_len)%Z -> df <> [] ->
  250 <= words_count (build_narrative df base_len words) <= 400.
Proof. intros _ _. apply build_narrative_words. Qed.

(** C4. A composed text of more than 400 words is cut to its first 400
    words, joined by single spaces; one of fewer than 250 words gets the
    filler appended and is returned as it then is; any other is
    returned unchanged. *)
Theorem build_narrative_length_rule
        (df : list row) (base_len : Z) (words : list str) :
  let t := composed df base_len words in
  (400 < words_count t ->
   build_narrative df base_len words = join (py " ") (firstn 400 (split t))
   /\ split (build_narrative df base_len words) = firstn 400 (split t)
   /\ words_count (build_narrative df base_len words) = 400)
  /\ (words_count t < 250 ->
      build_narrative df base_len words = t ++ py " " ++ filler
      /\ words_count (build_narrative df base_len words) = words_count t + 42)
  /\ (250 <= words_count t <= 400 -> build_narrative df base_len words = t).
Proof. intros t. apply adjust_length_spec. Qed.
End NarrativeFacts.

Lemma build_narrative_word_count_witness :
  250 <= words_count (@build_narrative exact_runtime
                        (@load_data exact_runtime sample_table) 7
                        [py "great"; py "coffee"; py "staff"]) <= 400.
Proof.
  apply (@build_narrative_word_count exact_runtime); [reflexivity|].
  vm_compute. discriminate.
Defined.

Lemma build_narrative_length_rule_witness :
  words_count (@build_narrative exact_runtime long_sample 5 []) = 400
  /\ words_count (@build_narrative exact_runtime ranking_sample 9 [])
     = words_count (@composed exact_runtime ranking_sample 9 []) + 42.
Proof.
  split.
  - apply (proj1 (@build_narrative_length_rule exact_runtime long_sample 5 [])).
    vm_compute. lia.
  - apply (proj1 (proj2 (@build_narrative_length_rule exact_runtime
                           ranking_sample 9 []))).
    vm_compute. lia.
Defined.

(** ** C5: the ranking of the words *)

Lemma str_eqb_refl (a : str) : str_eqb a a = true.
Proof. apply str_eqb_eq. reflexivity. Qed.

Lemma str_eqb_neq (a b : str) : str_eqb a b = false <-> a <> b.
Proof.
  rewrite <- str_eqb_eq. destruct (str_eqb a b); split; congruence.
Qed.

Lemma str_eqb_sym (a b : str) : str_eqb a b = str_eqb b a.
Proof.
  destruct (str_eqb b a) eqn:E.
  - apply str_eqb_eq in E. subst. apply str_eqb_refl.
  - apply str_eqb_neq. apply str_eqb_neq in E. congruence.
Qed.

Lemma existsb_str_eqb (w : str) (l : list str) :
  existsb (str_eqb w) l = true <-> In w l.
Proof.
  rewrite existsb_exists. split.
  - intros [x [H E]]. apply str_eqb_eq in E. subst. exact H.
  - intros H. exists w. split; [exact H|apply str_eqb_refl].
Qed.

(** *** The dict of counts *)

Lemma keys_bump (w : str) (d : list (str * nat)) :
  map fst (bump w d) = add_key (map fst d) w.
Proof.
  unfold add_key. induction d as [|[k n] d IH]; [reflexivity|].
  cbn [bump map fst existsb].
  destruct (str_eqb k w) eqn:E.
  - apply str_eqb_eq in E. subst k. rewrite str_eqb_refl. reflexivity.
  - rewrite str_eqb_sym, E. cbn [orb map fst]. rewrite IH.
    destruct (existsb (str_eqb w) (map fst d)); reflexivity.
Qed.

Lemma keys_fold_bump (toks : list str) :
  forall d, map fst (fold_left (fun d w => bump w d) toks d)
            = fold_left add_key toks (map fst d).
Proof.
  induction toks as [|w toks IH]; intros d; [reflexivity|].
  simpl. rewrite IH, keys_bump. reflexivity.
Qed.

Lemma lookup_bump (w v : str) (d : list (str * nat)) :
  lookup v (bump w d) = (if str_eqb w v then 1 else 0) + lookup v d.
Proof.
  induction d as [|[k n] d IH]; cbn [bump lookup].
  - lia.
  - destruct (str_eqb k w) eqn:E; cbn [lookup].
    + apply str_eqb_eq in E. subst k. destruct (str_eqb w v); lia.
    + destruct (str_eqb k v) eqn:F; [|exact IH].
      apply str_eqb_eq in F. subst k. rewrite str_eqb_sym, E. reflexivity.
Qed.

Lemma lookup_fold_bump (v : str) (toks : list str) :
  forall d, lookup v (fold_left (fun d w => bump w d) toks d)
            = occurrences v toks + lookup v d.
Proof.
  induction toks as [|w toks IH]; intros d; [reflexivity|].
  simpl. rewrite IH, lookup_bump. lia.
Qed.

Lemma lookup_In (w : str) (c : nat) (d : list (str * nat)) :
  NoDup (map fst d) -> In (w, c) d -> lookup w d = c.
Proof.
  induction d as [|[k n] d IH]; intros N H; [contradiction|].
  simpl in N. inversion N as [|? ? Hk Nd]; subst.
  cbn [lookup]. destruct H as [H|H].
  - injection H as -> ->. rewrite str_eqb_refl. reflexivity.
  - destruct (str_eqb k w) eqn:E; [|apply IH; assumption].
    apply str_eqb_eq in E. subst k. exfalso. apply Hk.
    apply in_map_iff. exists (w, c). split; [reflexivity|exact H].
Qed.

(** *** First occurrences *)

Lemma first_seen_lt (w : str) (t : list str) :
  In w t -> first_seen w t < length t.
Proof.
  induction t as [|x t IH]; [contradiction|]. simpl.
  destruct (str_eqb x w) eqn:E; [lia|].
  intros [H|H]; [subst; rewrite str_eqb_refl in E; discriminate|].
  apply IH in H. lia.
Qed.

Lemma first_seen_app (w : str) (t u : list str) :
  In w t -> first_seen w (t ++ u) = first_seen w t.
Proof.
  induction t as [|x t IH]; [contradiction|]. simpl.
  destruct (str_eqb x w) eqn:E; [reflexivity|].
  intros [H|H]; [subst; rewrite str_eqb_refl in E; discriminate|].
  rewrite IH by exact H. reflexivity.
Qed.

Lemma first_seen_new (w : str) (t : list str) :
  ~ In w t -> first_seen w (t ++ [w]) = length t.
Proof.
  induction t as [|x t IH]; simpl; intros H.
  - rewrite str_eqb_refl. reflexivity.
  - destruct (str_eqb x w) eqn:E.
    + apply str_eqb_eq in E. tauto.
    + rewrite IH by tauto. reflexivity.
Qed.

(** *** Sorted lists *)

Section SortedFacts.
Variable A : Type.
Variable R : A -> A -> Prop.

Lemma StronglySorted_snoc (l : list A) (x : A) :
  StronglySorted R l -> Forall (fun a => R a x) l ->
  StronglySorted R (l ++ [x]).
Proof.
  induction 1 as [|a l S IH F]; intros H; simpl.
  - constructor; constructor.
  - inversion H as [|? ? Ha Hl]; subst. constructor; [apply IH, Hl|].
    apply Forall_app. split; [exact F|constructor; [exact Ha|constructor]].
Qed.

Lemma StronglySorted_weaken (R' : A -> A -> Prop) (l : list A) :
  StronglySorted R l ->
  (forall a b, In a l -> In b l -> R a b -> R' a b) ->
  StronglySorted R' l.
Proof.
  induction 1 as [|a l S IH F]; intros H; constructor.
  - apply IH. intros x y Hx Hy. apply H; right; assumption.
  - rewrite Forall_forall in *. intros y Hy.
    apply H; [left; reflexivity|right; exact Hy|apply F, Hy].
Qed.

Lemma StronglySorted_firstn (n : nat) (l : list A) :
  StronglySorted R l -> StronglySorted R (firstn n l).
Proof.
  intros H. revert n. induction H as [|a l S IH F]; intros [|n]; simpl;
    try constructor; [apply IH|].
  rewrite Forall_forall in *. intros y Hy. apply F.
  eapply In_firstn. exact Hy.
Qed.

Lemma StronglySorted_nth (l : list A) (d : A) :
  StronglySorted R l ->
  forall i j, i < j -> j < length l -> R (nth i l d) (nth j l d).
Proof.
  induction 1 as [|a l S IH F]; intros i j Hij Hj; simpl in Hj; [lia|].
  destruct j as [|j]; [lia|]. destruct i as [|i]; simpl.
  - rewrite Forall_forall in F. apply F. apply nth_In. lia.
  - apply IH; lia.
Qed.

Lemma StronglySorted_app_cross (l1 l2 : list A) (a b : A) :
  StronglySorted R (l1 ++ l2) -> In a l1 -> In b l2 -> R a b.
Proof.
  induction l1 as [|x l1 IH]; simpl; intros S Ha Hb; [contradiction|].
  inversion S as [|? ? S' F]; subst. destruct Ha as [->|Ha].
  - rewrite Forall_forall in F. apply F. apply in_or_app. right. exact Hb.
  - apply IH; assumption.
Qed.

Lemma StronglySorted_NoDup (l : list A) :
  (forall a, ~ R a a) -> StronglySorted R l -> NoDup l.
Proof.
  intros Irr. induction 1 as [|a l S IH F]; constructor; [|exact IH].
  intros H. rewrite Forall_forall in F. apply (Irr a). apply F, H.
Qed.
End SortedFacts.

Lemma StronglySorted_map_inv (A B : Type) (f : A -> B) (R : B -> B -> Prop)
      (l : list A) :
  StronglySorted R (map f l) ->
  StronglySorted (fun a b => R (f a) (f b)) l.
Proof.
  induction l as [|a l IH]; simpl; intros H; [constructor|].
  inversion H as [|? ? S F]; subst. constructor; [apply IH, S|].
  rewrite Forall_forall in *. intros y Hy. apply F.
  apply in_map. exact Hy.
Qed.

(** *** The keys of the dict are in the order they were first seen *)

Lemma seen_keys (t : list str) :
  (forall w, In w (fold_left add_key t []) <-> In w t)
  /\ StronglySorted (fun a b => first_seen a t < first_seen b t)
                    (fold_left add_key t []).
Proof.
  induction t as [|w t [IHin IHs]] using rev_ind.
  - split; [intros w; reflexivity|constructor].
  - rewrite fold_left_app. cbn [fold_left].
    set (K := fold_left add_key t []) in *. unfold add_key.
    assert (Hold : StronglySorted
                     (fun a b => first_seen a (t ++ [w]) < first_seen b (t ++ [w])) K).
    { apply (@StronglySorted_weaken _ _ _ K IHs). intros a b Ha Hb H.
      rewrite !first_seen_app by (apply IHin; assumption). exact H. }
    destruct (existsb (str_eqb w) K) eqn:E.
    + apply existsb_str_eqb in E. split; [|exact Hold].
      intros v. rewrite IHin, in_app_iff. simpl.
      split; [auto|]. intros [H|[H|[]]]; [exact H|subst; apply IHin, E].
    + assert (Hw : ~ In w t).
      { intros H. apply IHin in H. apply existsb_str_eqb in H. congruence. }
      split.
      * intros v. rewrite !in_app_iff, IHin. reflexivity.
      * apply StronglySorted_snoc; [exact Hold|].
        apply Forall_forall. intros k Hk. apply IHin in Hk.
        rewrite first_seen_app by exact Hk. rewrite first_seen_new by exact Hw.
        apply first_seen_lt. exact Hk.
Qed.

(** *** The stable sort ranks the dict *)

Lemma insert_ranked (toks : list str) (x : str * nat) (l : list (str * nat)) :
  StronglySorted (ranked toks) l ->
  Forall (fun y => first_seen (fst x) toks < first_seen (fst y) toks) l ->
  StronglySorted (ranked toks) (insert_sorted (fun a b => snd b <? snd a) x l).
Proof.
  induction 1 as [|y l S IH F]; intros H; simpl.
  - constructor; constructor.
  - inversion H as [|? ? Hy Hl]; subst.
    rewrite Forall_forall in F, Hl.
    destruct (Nat.ltb_spec (snd x) (snd y)) as [L|L].
    + constructor; [apply IH; apply Forall_forall; exact Hl|].
      apply Forall_forall. intros z Hz. apply insert_sorted_In in Hz.
      destruct Hz as [->|Hz]; [|apply F, Hz].
      split; lia.
    + constructor; [constructor; [exact S|apply Forall_forall; exact F]|].
      constructor; [split; [exact L|intros _; exact Hy]|].
      apply Forall_forall. intros z Hz. split.
      * destruct (F z Hz) as [Hz1 _]. lia.
      * intros _. apply Hl, Hz.
Qed.

Lemma sorted_desc_ranked (toks : list str) (d : list (str * nat)) :
  StronglySorted
    (fun a b => first_seen (fst a) toks < first_seen (fst b) toks) d ->
  StronglySorted (ranked toks) (sorted_desc d).
Proof.
  unfold sorted_desc. induction 1 as [|x d S IH F]; simpl; [constructor|].
  apply insert_ranked; [exact IH|].
  rewrite Forall_forall in *. intros y Hy. apply F.
  apply stable_sort_In in Hy. exact Hy.
Qed.

Lemma nth_map_fst (l : list (str * nat)) (i : nat) :
  nth i (map fst l) [] = fst (nth i l ([], 0)).
Proof. exact (map_nth fst l ([], 0) i). Qed.

Lemma nth_map_snd (l : list (str * nat)) (i : nat) :
  nth i (map snd l) 0 = snd (nth i l ([], 0)).
Proof. exact (map_nth snd l ([], 0) i). Qed.

Section WordsFacts.
Context {RT : Runtime}.

Lemma fold_qualifying (l : list str) :
  forall d,
    fold_left (fun counts w => if qualifies w then bump w counts else counts) l d
    = fold_left (fun d w => bump w d) (filter qualifies l) d.
Proof.
  induction l as [|w l IH]; intros d; [reflexivity|]. simpl.
  destruct (qualifies w); simpl; apply IH.
Qed.

(** The two loops count the tokens in reading order. *)
Lemma counts_of_tokens (comments : list str) :
  counts_of comments = fold_left (fun d w => bump w d) (tokens comments) [].
Proof.
  unfold counts_of, tokens. generalize (@nil (str * nat)) as d.
  induction comments as [|c comments IH]; intros d; [reflexivity|].
  simpl. rewrite fold_left_app, IH, fold_qualifying. reflexivity.
Qed.

Lemma counts_of_keys_sorted (comments : list str) :
  StronglySorted
    (fun a b => first_seen (fst a) (tokens comments)
                < first_seen (fst b) (tokens comments))
    (counts_of comments).
Proof.
  apply StronglySorted_map_inv with (f := @fst str nat)
    (R := fun a b => first_seen a (tokens comments)
                     < first_seen b (tokens comments)).
  rewrite counts_of_tokens, keys_fold_bump. apply seen_keys.
Qed.

Lemma counts_of_occurrences (comments : list str) (w : str) (c : nat) :
  In (w, c) (counts_of comments) -> c = occurrences w (tokens comments).
Proof.
  intros H. rewrite <- (@lookup_In w c (counts_of comments)).
  - rewrite counts_of_tokens, lookup_fold_bump. simpl. lia.
  - rewrite counts_of_tokens, keys_fold_bump.
    apply StronglySorted_NoDup with (2 := proj2 (seen_keys (tokens comments))).
    intros a. lia.
  - exact H.
Qed.

Lemma top_words_items (series : list (option str)) (n : Z) :
  top_words series n
  = (map fst (slice_to n (sorted_desc (counts_of (dropna series)))),
     map snd (slice_to n (sorted_desc (counts_of (dropna series))))).
Proof.
  unfold top_words.
  destruct (slice_to n (sorted_desc (counts_of (dropna series))));
    reflexivity.
Qed.

Lemma counts_of_has_token (comments : list str) (w : str) :
  In w (tokens comments) ->
  In (w, occurrences w (tokens comments)) (counts_of comments).
Proof.
  intros H.
  assert (K : In w (map fst (counts_of comments))).
  { rewrite counts_of_tokens, keys_fold_bump. apply seen_keys. exact H. }
  apply in_map_iff in K. destruct K as [[v c] [E K]]. simpl in E. subst v.
  rewrite <- (counts_of_occurrences _ _ _ K). exact K.
Qed.

Lemma stable_sort_length (A : Type) (before : A -> A -> bool) (l : list A) :
  length (stable_sort before l) = length l.
Proof.
  assert (I : forall x m, length (insert_sorted before x m) = S (length m)).
  { intros x m. induction m as [|y m IH]; [reflexivity|]. simpl.
    destruct (before y x); simpl; [rewrite IH|]; reflexivity. }
  induction l as [|x l IH]; [reflexivity|]. simpl. rewrite I, IH. reflexivity.
Qed.

(** The dict has one key for each different token. *)
Lemma counts_of_length (comments : list str) :
  length (counts_of comments) = length (distinct (tokens comments)).
Proof.
  rewrite <- (length_map fst (counts_of comments)).
  rewrite counts_of_tokens, keys_fold_bump. cbn [map].
  apply Permutation_length, NoDup_Permutation.
  - apply StronglySorted_NoDup with (2 := proj2 (seen_keys (tokens comments))).
    intros a. lia.
  - apply NoDup_nodup.
  - intros w. unfold distinct. rewrite nodup_In. apply seen_keys.
Qed.

Lemma counts_of_key_token (comments : list str) (w : str) (c : nat) :
  In (w, c) (counts_of comments) -> In w (tokens comments).
Proof.
  intros H. apply (in_map fst) in H. cbn [fst] in H.
  rewrite counts_of_tokens, keys_fold_bump in H.
  exact (proj1 (proj1 (seen_keys (tokens comments)) w) H).
Qed.

(** C5. For a limit [n] that is not negative, [top_words] returns the
    [n] first words of the ranking with their counts, or all the counted
    words when there are fewer than [n] different ones: the two sequences
    have the same length, which is at most [n] and is the smaller of [n]
    and the number of different counted words; every returned word is a
    counted token; larger counts come first and equal counts in the order
    in which the words were first met; each count is the number of
    occurrences of its word among the counted tokens; a counted word that
    is left out occurs no more often than any returned one, and on equal
    counts it was first met later; both sequences are empty when no token
    is counted. *)
Theorem top_words_ranking (series : list (option str)) (n : Z) :
  (0 <= n)%Z ->
  let ws := fst (top_words series n) in
  let fs := snd (top_words series n) in
  let toks := tokens (dropna series) in
  length ws = length fs
  /\ (Z.of_nat (length ws) <= n)%Z
  /\ length ws = Nat.min (Z.to_nat n) (length (distinct toks))
  /\ (forall w, In w ws -> In w toks)
  /\ (forall i j, i < j -> j < length ws ->
        nth j fs 0 <= nth i fs 0
        /\ (nth i fs 0 = nth j fs 0 ->
            first_seen (nth i ws []) toks < first_seen (nth j ws []) toks))
  /\ (forall i, i < length ws ->
        nth i fs 0 = occurrences (nth i ws []) toks)
  /\ (forall w i, In w toks -> ~ In w ws -> i < length ws ->
        occurrences w toks <= nth i fs 0
        /\ (nth i fs 0 = occurrences w toks ->
            first_seen (nth i ws []) toks < first_seen w toks))
  /\ (toks = [] -> ws = [] /\ fs = []).
Proof.
  intros Hn. rewrite top_words_items. cbn [fst snd]. cbv zeta.
  unfold slice_to. replace (n <? 0)%Z with false by (symmetry; apply Z.ltb_ge; exact Hn).
  set (items := sorted_desc (counts_of (dropna series))).
  set (top := firstn (Z.to_nat n) items).
  assert (Hs : StronglySorted (ranked (tokens (dropna series))) top).
  { apply StronglySorted_firstn, sorted_desc_ranked, counts_of_keys_sorted. }
  assert (Hitems : forall w c, In (w, c) items ->
                               In (w, c) (counts_of (dropna series))).
  { intros w c H. unfold items, sorted_desc in H.
    apply stable_sort_In in H. exact H. }
  rewrite !length_map.
  split; [reflexivity|]. split.
  { unfold top. rewrite length_firstn. lia. }
  split.
  { unfold top. rewrite length_firstn. unfold items, sorted_desc.
    rewrite stable_sort_length, counts_of_length. reflexivity. }
  split.
  { intros w Hw. apply in_map_iff in Hw. destruct Hw as [[v c] [E Hw]].
    cbn [fst] in E. subst v. apply In_firstn in Hw.
    exact (counts_of_key_token _ _ _ (Hitems _ _ Hw)). }
  split.
  { intros i j Hij Hj.
    pose proof (StronglySorted_nth ([], 0) Hs Hij Hj) as [H1 H2].
    rewrite !nth_map_fst, !nth_map_snd. split; assumption. }
  split.
  { intros i Hi.
    rewrite nth_map_fst, nth_map_snd.
    apply counts_of_occurrences.
    assert (Hin : In (nth i top ([], 0)) items)
      by (eapply In_firstn; apply nth_In; exact Hi).
    destruct (nth i top ([], 0)) as [w c]. exact (Hitems _ _ Hin). }
  split.
  { intros w i Hw Hout Hi. rewrite nth_map_fst, nth_map_snd.
    apply counts_of_has_token in Hw.
    apply (stable_sort_In (fun a b => snd b <? snd a)) in Hw.
    fold (sorted_desc (counts_of (dropna series))) in Hw. fold items in Hw.
    rewrite <- (firstn_skipn (Z.to_nat n) items) in Hw. fold top in Hw.
    apply in_app_or in Hw. destruct Hw as [Hw|Hw].
    - exfalso. apply Hout. apply in_map_iff.
      exists (w, occurrences w (tokens (dropna series))).
      split; [reflexivity|exact Hw].
    - assert (Hall : StronglySorted (ranked (tokens (dropna series)))
                                    (top ++ skipn (Z.to_nat n) items)).
      { unfold top. rewrite firstn_skipn.
        apply sorted_desc_ranked, counts_of_keys_sorted. }
      assert (Hi' : In (nth i top ([], 0)) top) by (apply nth_In; exact Hi).
      destruct (StronglySorted_app_cross _ _ _ _ Hall Hi' Hw) as [Hle Htie].
      cbn [fst snd] in Hle, Htie. split; assumption. }
  intros Ht. unfold top, items.
  rewrite counts_of_tokens, Ht. simpl.
  rewrite firstn_nil. split; reflexivity.
Qed.
End WordsFacts.

Lemma top_words_ranking_witness :
  (0 <= 2)%Z
  /\ length (fst (@top_words exact_runtime
                    (map raw_comment (raw_rows sample_table)) 2))
     = Nat.min (Z.to_nat 2)
         (length (distinct (@tokens exact_runtime
                              (dropna (map raw_comment
                                           (raw_rows sample_table)))))).
Proof.
  split; [lia|].
  exact (proj1 (proj2 (proj2
           (@top_words_ranking exact_runtime
              (map raw_comment (raw_rows sample_table)) 2 ltac:(lia))))).
Defined.

(** The same call: "great" was counted 14 times; "coffee" and "staff" 7
    times each, and "coffee" was met first. *)
Example top_words_sample :
  @top_words exact_runtime (map raw_comment (raw_rows sample_table)) 2
  = ([py "great"; py "coffee"], [14; 7]).
Proof. vm_compute. reflexivity. Qed.

(** A negative limit is a slice from the end: the last word is dropped. *)
Example top_words_negative_limit :
  @top_words exact_runtime (map raw_comment (raw_rows sample_table)) (-1)
  = ([py "great"; py "coffee"], [14; 7]).
Proof. vm_compute. reflexivity. Qed.

(** * Further properties *)

(** ** What a match is made of *)

Section MatcherSound.
Variable A : Type.

Lemma iterate_sound (r : regex) :
  (forall s (k : str -> option A) x, exec r s k = Some x -> matched r k s x) ->
  forall (k : str -> option A) fuel lo hi s x,
    iterate (exec r) k fuel lo hi s = Some x -> matched r k s x.
Proof.
  intros Hr k fuel. induction fuel as [|fuel IH]; intros lo hi s x H;
    [discriminate|].
  cbn [iterate] in H.
  set (k' := fun s' => if length s' <? length s
                       then iterate (exec r) k fuel (pred lo)
                                    (option_map pred hi) s'
                       else None) in H.
  assert (Hstop : k s = Some x -> matched r k s x).
  { intros E. exists [], s. repeat split; [constructor|exact E]. }
  assert (Hagain : exec r s k' = Some x -> matched r k s x).
  { intros E. destruct (Hr _ _ _ E) as [m1 [rest1 [Es [F1 K]]]].
    unfold k' in K. destruct (length rest1 <? length s); [|discriminate].
    destruct (IH _ _ _ _ K) as [m2 [rest [E2 [F2 K2]]]].
    exists (m1 ++ m2), rest. subst. rewrite <- app_assoc.
    repeat split; [apply Forall_app; split; assumption|exact K2]. }
  assert (Hopt : match exec r s k' with Some a => Some a | None => k s end
                 = Some x -> matched r k s x).
  { destruct (exec r s k') as [a|] eqn:E; intros E'; [|auto].
    injection E' as ->. auto. }
  destruct hi as [[|h]|]; destruct lo as [|lo]; try discriminate; auto.
Qed.

Lemma exec_sound (r : regex) :
  forall s (k : str -> option A) x, exec r s k = Some x -> matched r k s x.
Proof.
  unfold matched.
  induction r as [p|r1 IH1 r2 IH2|r1 IH1 r2 IH2|lo hi r1 IH1];
    intros s k x H; cbn [exec] in H.
  - destruct s as [|c s']; [discriminate|].
    destruct (p c) eqn:E; [|discriminate].
    exists [c], s'. repeat split; [|exact H].
    constructor; [exact E|constructor].
  - destruct (IH1 _ _ _ H) as [m1 [rest1 [E1 [F1 K1]]]].
    destruct (IH2 _ _ _ K1) as [m2 [rest [E2 [F2 K2]]]].
    exists (m1 ++ m2), rest. subst. rewrite <- app_assoc.
    repeat split; [|exact K2].
    apply Forall_app. split; eapply Forall_impl; try eassumption;
      cbn [alphabet]; intros c ->; [reflexivity|apply orb_true_r].
  - destruct (exec r1 s k) eqn:E.
    + injection H as ->. destruct (IH1 _ _ _ E) as [m [rest [E1 [F1 K1]]]].
      exists m, rest. repeat split; [exact E1| |exact K1].
      eapply Forall_impl; [|exact F1]. cbn [alphabet]. intros c ->. reflexivity.
    + destruct (IH2 _ _ _ H) as [m [rest [E1 [F1 K1]]]].
      exists m, rest. repeat split; [exact E1| |exact K1].
      eapply Forall_impl; [|exact F1]. cbn [alphabet]. intros c ->.
      apply orb_true_r.
  - apply (iterate_sound IH1) in H. exact H.
Qed.
End MatcherSound.

Lemma firstn_app_length (A : Type) (m rest : list A) :
  firstn (length (m ++ rest) - length rest) (m ++ rest) = m.
Proof.
  rewrite length_app. replace (length m + length rest - length rest) with (length m) by lia.
  rewrite firstn_app, Nat.sub_diag, firstn_all. simpl. apply app_nil_r.
Qed.

Lemma match_here_sound (r : regex) (s rest : str) :
  match_here r s = Some rest ->
  s = firstn (length s - length rest) s ++ rest
  /\ Forall (fun c => alphabet r c = true) (firstn (length s - length rest) s).
Proof.
  intros E. destruct (exec_sound _ _ _ E) as [m [rest' [E1 [F K]]]].
  injection K as ->. subst s. rewrite firstn_app_length.
  split; [reflexivity|exact F].
Qed.

(** [re.search] cuts the text in three, and the match holds characters
    of the pattern only. *)
Lemma search_sound (r : regex) (s b m a : str) :
  search r s = Some (b, m, a) ->
  s = b ++ m ++ a /\ Forall (fun c => alphabet r c = true) m.
Proof.
  revert b. induction s as [|c s IH]; intros b H; cbn [search] in H.
  - destruct (match_here r []) as [rest|] eqn:E; [|discriminate].
    injection H as <- <- <-. exact (@match_here_sound _ _ _ E).
  - destruct (match_here r (c :: s)) as [rest|] eqn:E.
    + injection H as <- <- <-. exact (@match_here_sound _ _ _ E).
    + destruct (search r s) as [[[b' m'] a']|] eqn:E'; [|discriminate].
      injection H as <- <- <-. destruct (IH _ eq_refl) as [E1 F].
      split; [simpl; f_equal; exact E1|exact F].
Qed.

(** [re.sub] with a one-character class and an empty replacement drops
    the characters of the class. *)
Lemma sub_class_empty (p : char -> bool) (s : str) :
  sub (Chr p) [] s = filter (fun c => negb (p c)) s.
Proof.
  unfold sub. induction s as [|c s IH]; [reflexivity|].
  cbn [sub_from filter]. unfold match_length, match_here. cbn [exec].
  destruct (p c); cbn [negb].
  - cbn [length].
    replace (length s <? S (length s)) with true
      by (symmetry; apply Nat.ltb_lt; lia).
    replace (S (length s) - length s - 1) with 0 by lia.
    exact IH.
  - rewrite IH. reflexivity.
Qed.

Lemma value_pattern_alphabet (c : char) :
  alphabet value_pattern c = true ->
  (c =? 44)%N || (c =? 36)%N = false ->
  literal_char c = true.
Proof.
  unfold literal_char. cbn [alphabet value_pattern opt star plus lit digit].
  rewrite !(N.eqb_sym c).
  destruct (45 =? c)%N, (36 =? c)%N, (44 =? c)%N, (46 =? c)%N,
    (is_space c), (is_digit c); simpl; intros; congruence.
Qed.

Section FloatArgument.
Context {RT : Runtime}.

Lemma parse_value_float_argument (x : option str) :
  parse_value x
  = match float_argument x with
    | None => None
    | Some text =>
        match float text with
        | None => None
        | Some val =>
            if Qle_bool val 0 || negb (Qle_bool val 500) then None else Some val
        end
    end.
Proof.
  unfold parse_value, float_argument. destruct x as [raw|]; [|reflexivity].
  destruct (search value_pattern (strip raw)) as [[[b m] a]|]; reflexivity.
Qed.

(** X3. What [parse_value] hands to [float] is made of minus signs,
    whitespace, ASCII digits and decimal points: the commas and dollar
    signs are gone, and no letter of an exponent, of "inf" or of "nan" gets
    there. *)
Theorem float_argument_literal (x : option str) (text : str) :
  float_argument x = Some text ->
  Forall (fun c => literal_char c = true) text.
Proof.
  unfold float_argument. destruct x as [raw|]; [|discriminate].
  destruct (search value_pattern (strip raw)) as [[[b m] a]|] eqn:E;
    [|discriminate].
  intros H. injection H as <-. unfold comma_dollar_pattern.
  rewrite sub_class_empty. apply search_sound in E. destruct E as [_ F].
  apply Forall_forall. intros c Hc. apply filter_In in Hc.
  destruct Hc as [Hin Hc]. rewrite Forall_forall in F.
  apply value_pattern_alphabet; [apply F, Hin|].
  destruct ((c =? 44)%N || (c =? 36)%N); [discriminate|reflexivity].
Qed.
End FloatArgument.

Lemma float_argument_literal_witness :
  Forall (fun c => literal_char c = true) (py "-1234.56").
Proof.
  apply (@float_argument_literal (Some (py " about -$1,234.56 each"))).
  vm_compute. reflexivity.
Defined.

(** ** Padding around a transaction value *)

Lemma lstrip_spaces_app (pre x : str) :
  Forall (fun c => is_space c = true) pre -> lstrip (pre ++ x) = lstrip x.
Proof.
  induction 1 as [|c pre Hc _ IH]; [reflexivity|].
  simpl. rewrite Hc. exact IH.
Qed.

Lemma lstrip_all_spaces (s : str) :
  Forall (fun c => is_space c = true) s -> lstrip s = [].
Proof.
  induction 1 as [|c s Hc _ IH]; [reflexivity|]. simpl. rewrite Hc. exact IH.
Qed.

Lemma lstrip_app (s y : str) :
  lstrip (s ++ y) = if forallb is_space s then lstrip y else lstrip s ++ y.
Proof.
  induction s as [|c s IH]; [reflexivity|].
  simpl. destruct (is_space c); [exact IH|reflexivity].
Qed.

Lemma rstrip_app_spaces (u post : str) :
  Forall (fun c => is_space c = true) post -> rstrip (u ++ post) = rstrip u.
Proof.
  intros H. unfold rstrip. rewrite rev_app_distr.
  rewrite lstrip_spaces_app; [reflexivity|]. apply Forall_rev. exact H.
Qed.

Lemma strip_padded (pre s post : str) :
  Forall (fun c => is_space c = true) pre ->
  Forall (fun c => is_space c = true) post ->
  strip (pre ++ s ++ post) = strip s.
Proof.
  intros Hpre Hpost. unfold strip.
  rewrite lstrip_spaces_app by exact Hpre. rewrite lstrip_app.
  destruct (forallb is_space s) eqn:E.
  - assert (Hs : Forall (fun c => is_space c = true) s)
      by (apply Forall_forall; apply forallb_forall; exact E).
    rewrite (lstrip_all_spaces Hs), (lstrip_all_spaces Hpost). reflexivity.
  - apply rstrip_app_spaces. exact Hpost.
Qed.

Section Padding.
Context {RT : Runtime}.

(** X4. Whitespace before and after the text of a cell never changes
    what [parse_value] returns. *)
Theorem parse_value_ignores_padding (pre s post : str) :
  Forall (fun c => is_space c = true) pre ->
  Forall (fun c => is_space c = true) post ->
  parse_value (Some (pre ++ s ++ post)) = parse_value (Some s).
Proof.
  intros Hpre Hpost. unfold parse_value.
  rewrite (strip_padded s Hpre Hpost). reflexivity.
Qed.
End Padding.

Lemma parse_value_ignores_padding_witness :
  @parse_value exact_runtime (Some (py "  " ++ py "$12.50" ++ [9%N; 10%N]))
  = @parse_value exact_runtime (Some (py "$12.50")).
Proof.
  apply (@parse_value_ignores_padding exact_runtime);
    repeat constructor.
Defined.

(** ** What the word extractor returns *)

Section ClassWords.
Variable p : char -> bool.

Lemma span_fst_class (s : str) : Forall (fun c => p c = true) (fst (span p s)).
Proof.
  induction s as [|c s IH]; simpl; [constructor|].
  destruct (p c) eqn:E; [|constructor].
  destruct (span p s) as [a b]. simpl in *. constructor; assumption.
Qed.

Lemma span_fst_firstn (s : str) :
  firstn (length (fst (span p s))) s = fst (span p s).
Proof.
  induction s as [|c s IH]; simpl; [reflexivity|].
  destruct (p c); [|reflexivity].
  destruct (span p s) as [a b]. simpl in *. f_equal. exact IH.
Qed.

(** [re.findall] with the pattern [[p]+] returns non-empty runs of the
    class. *)
Lemma findall_class_plus (s : str) :
  forall skip,
    Forall (fun w => w <> [] /\ Forall (fun c => p c = true) w)
           (findall_from (plus (Chr p)) skip s).
Proof.
  induction s as [|c s IH]; intros skip; cbn [findall_from]; [constructor|].
  destruct skip as [|n]; [|apply IH].
  rewrite match_length_class_plus. destruct (p c) eqn:E; [|apply IH].
  constructor; [|apply IH].
  cbn [firstn]. rewrite span_fst_firstn.
  split; [discriminate|]. constructor; [exact E|apply span_fst_class].
Qed.
End ClassWords.

Lemma occurrences_pos (w : str) (toks : list str) :
  In w toks -> 1 <= occurrences w toks.
Proof.
  induction toks as [|x toks IH]; [contradiction|]. simpl.
  intros [->|H]; [rewrite str_eqb_refl; lia|].
  apply IH in H. lia.
Qed.

Lemma In_slice_to (A : Type) (n : Z) (x : A) (l : list A) :
  In x (slice_to n l) -> In x l.
Proof. unfold slice_to. destruct (n <? 0)%Z; apply In_firstn. Qed.

Section WordsContent.
Context {RT : Runtime}.

Lemma tokens_qualify (comments : list str) (w : str) :
  In w (tokens comments) ->
  qualifies w = true /\ Forall (fun c => word_char c = true) w.
Proof.
  unfold tokens. rewrite in_flat_map. intros [c [_ H]].
  apply filter_In in H. destruct H as [H Q]. split; [exact Q|].
  unfold findall, word_pattern in H.
  pose proof (findall_class_plus
                (fun c => in_range 97 122 c || in_range 65 90 c || N.eqb c 39)
                (lower c) 0) as F.
  rewrite Forall_forall in F. apply F in H. apply H.
Qed.

Lemma top_words_items_counted (series : list (option str)) (n : Z)
      (w : str) (c : nat) :
  In (w, c) (slice_to n (sorted_desc (counts_of (dropna series)))) ->
  In w (tokens (dropna series))
  /\ c = occurrences w (tokens (dropna series)).
Proof.
  intros H. apply In_slice_to in H. unfold sorted_desc in H.
  apply stable_sort_In in H. split.
  - apply (in_map fst) in H. simpl in H.
    rewrite counts_of_tokens, keys_fold_bump in H.
    exact (proj1 (proj1 (seen_keys (tokens (dropna series))) w) H).
  - apply counts_of_occurrences. exact H.
Qed.

(** X5. Every word [top_words] returns is one of the counted tokens: it
    is no stop word, it has two characters at least, and it is made of
    ASCII letters and apostrophes. *)
Theorem top_words_are_tokens (series : list (option str)) (n : Z) (w : str) :
  In w (fst (top_words series n)) ->
  In w (tokens (dropna series))
  /\ ~ In w stop_words
  /\ 2 <= length w
  /\ Forall (fun c => word_char c = true) w.
Proof.
  rewrite top_words_items. cbn [fst]. rewrite in_map_iff.
  intros [[v c] [E H]]. simpl in E. subst v.
  apply top_words_items_counted in H. destruct H as [H _].
  split; [exact H|]. apply tokens_qualify in H. destruct H as [Q F].
  unfold qualifies in Q. apply andb_true_iff in Q. destruct Q as [Q1 Q2].
  repeat split; [|apply Nat.ltb_lt in Q2; lia|exact F].
  intros C. apply existsb_str_eqb in C. rewrite C in Q1. discriminate.
Qed.
End WordsContent.

Lemma top_words_are_tokens_witness :
  In (py "coffee") (@tokens exact_runtime [py "Great coffee and great staff"])
  /\ ~ In (py "coffee") stop_words
  /\ 2 <= length (py "coffee")
  /\ Forall (fun c => word_char c = true) (py "coffee").
Proof.
  apply (@top_words_are_tokens exact_runtime
           [Some (py "Great coffee and great staff")] 12 (py "coffee")).
  vm_compute. auto.
Defined.

(** *** Distinct words, positive counts *)

Lemma insert_sorted_perm (A : Type) (before : A -> A -> bool) (x : A)
      (l : list A) :
  Permutation (insert_sorted before x l) (x :: l).
Proof.
  induction l as [|y l IH]; simpl; [reflexivity|].
  destruct (before y x); [|reflexivity].
  rewrite IH. apply perm_swap.
Qed.

Lemma stable_sort_perm (A : Type) (before : A -> A -> bool) (l : list A) :
  Permutation (stable_sort before l) l.
Proof.
  induction l as [|x l IH]; simpl; [reflexivity|].
  rewrite insert_sorted_perm. constructor. exact IH.
Qed.

Lemma NoDup_firstn (A : Type) (k : nat) (l : list A) :
  NoDup l -> NoDup (firstn k l).
Proof.
  intros H. rewrite <- (firstn_skipn k l) in H.
  apply NoDup_app_remove_r in H. exact H.
Qed.

Lemma slice_to_firstn (A : Type) (n : Z) (l : list A) :
  exists k, slice_to n l = firstn k l.
Proof. unfold slice_to. destruct (n <? 0)%Z; eexists; reflexivity. Qed.

Lemma list_sum_insert_sorted (before : str * nat -> str * nat -> bool)
      (x : str * nat) (l : list (str * nat)) :
  list_sum (map snd (insert_sorted before x l)) = snd x + list_sum (map snd l).
Proof.
  induction l as [|y l IH]; simpl; [reflexivity|].
  destruct (before y x); simpl; [rewrite IH|]; lia.
Qed.

Lemma list_sum_sorted_desc (l : list (str * nat)) :
  list_sum (map snd (sorted_desc l)) = list_sum (map snd l).
Proof.
  unfold sorted_desc. induction l as [|x l IH]; simpl; [reflexivity|].
  rewrite list_sum_insert_sorted, IH. reflexivity.
Qed.

Lemma list_sum_bump (w : str) (d : list (str * nat)) :
  list_sum (map snd (bump w d)) = S (list_sum (map snd d)).
Proof.
  induction d as [|[k c] d IH]; simpl; [reflexivity|].
  destruct (str_eqb k w); simpl; [|rewrite IH]; lia.
Qed.

Lemma list_sum_fold_bump (toks : list str) :
  forall d, list_sum (map snd (fold_left (fun d w => bump w d) toks d))
            = length toks + list_sum (map snd d).
Proof.
  induction toks as [|w toks IH]; intros d; [reflexivity|].
  simpl. rewrite IH, list_sum_bump. lia.
Qed.

Lemma list_sum_firstn (k : nat) (l : list nat) :
  list_sum (firstn k l) <= list_sum l.
Proof.
  revert k. induction l as [|x l IH]; intros [|k]; simpl; try lia.
  specialize (IH k). lia.
Qed.

Section WordsShape.
Context {RT : Runtime}.

Lemma counts_of_keys_NoDup (comments : list str) :
  NoDup (map fst (counts_of comments)).
Proof.
  rewrite counts_of_tokens, keys_fold_bump.
  apply StronglySorted_NoDup with (2 := proj2 (seen_keys (tokens comments))).
  intros a. lia.
Qed.

(** X6. Whatever the limit, [top_words] returns as many counts as words,
    no word twice, and every count is one at least. *)
Theorem top_words_distinct (series : list (option str)) (n : Z) :
  length (fst (top_words series n)) = length (snd (top_words series n))
  /\ NoDup (fst (top_words series n))
  /\ Forall (fun c => 1 <= c) (snd (top_words series n)).
Proof.
  rewrite top_words_items. cbn [fst snd]. rewrite !length_map.
  split; [reflexivity|]. split.
  - destruct (slice_to_firstn n (sorted_desc (counts_of (dropna series))))
      as [k ->].
    rewrite <- firstn_map. apply NoDup_firstn.
    apply (Permutation_NoDup (l := map fst (counts_of (dropna series))));
      [|apply counts_of_keys_NoDup].
    apply Permutation_map. symmetry. apply stable_sort_perm.
  - apply Forall_forall. intros c Hc. apply in_map_iff in Hc.
    destruct Hc as [[w c'] [E H]]. simpl in E. subst c'.
    apply top_words_items_counted in H. destruct H as [H ->].
    apply occurrences_pos. exact H.
Qed.

(** X7. The counts [top_words] returns never add up to more than the
    number of counted tokens, and they add up to exactly that number when
    the limit was not reached. *)
Theorem top_words_counts_total (series : list (option str)) (n : Z) :
  list_sum (snd (top_words series n)) <= length (tokens (dropna series))
  /\ ((Z.of_nat (length (fst (top_words series n))) < n)%Z ->
      list_sum (snd (top_words series n)) = length (tokens (dropna series))).
Proof.
  rewrite top_words_items. cbn [fst snd]. rewrite length_map.
  set (items := sorted_desc (counts_of (dropna series))).
  assert (Hall : list_sum (map snd items) = length (tokens (dropna series))).
  { unfold items. rewrite list_sum_sorted_desc, counts_of_tokens,
      list_sum_fold_bump. simpl. lia. }
  split.
  - destruct (slice_to_firstn n items) as [k ->].
    rewrite <- firstn_map, <- Hall. apply list_sum_firstn.
  - intros H. unfold slice_to in *.
    destruct (Z.ltb_spec n 0) as [L|L]; [lia|].
    rewrite length_firstn in H.
    rewrite firstn_all2 by lia. exact Hall.
Qed.

(** X8. A smaller limit returns the first words and counts of what a
    larger limit returns. *)
Theorem top_words_prefix (series : list (option str)) (n m : Z) :
  (0 <= n <= m)%Z ->
  fst (top_words series n) = firstn (Z.to_nat n) (fst (top_words series m))
  /\ snd (top_words series n) = firstn (Z.to_nat n) (snd (top_words series m)).
Proof.
  intros H. rewrite !top_words_items. cbn [fst snd]. unfold slice_to.
  destruct (Z.ltb_spec n 0) as [L|_]; [lia|].
  destruct (Z.ltb_spec m 0) as [L|_]; [lia|].
  rewrite !firstn_map, !firstn_firstn.
  replace (Init.Nat.min (Z.to_nat n) (Z.to_nat m)) with (Z.to_nat n) by lia.
  split; reflexivity.
Qed.

(** *** A table without comments *)

Lemma no_comment_no_token (comments : list str) :
  Forall (fun c => c = []) comments -> tokens comments = [].
Proof.
  induction 1 as [|c comments Hc _ IH]; [reflexivity|].
  subst c. unfold tokens in *. simpl. exact IH.
Qed.

Lemma dropna_map_Some (A B : Type) (f : A -> option B) (b : B) (l : list A) :
  (forall a, In a l -> f a = Some b) ->
  Forall (fun x => x = b) (dropna (map f l)).
Proof.
  induction l as [|a l IH]; intros H; simpl; [constructor|].
  rewrite (H a (or_introl eq_refl)). constructor; [reflexivity|].
  apply IH. intros a' Ha. apply H. right. exact Ha.
Qed.

(** X9. When the file has no Comment column, every frame taken from the
    cleaned rows gives an empty word ranking, whatever the limit, and the
    narrative falls back on the themes "service, coffee". *)
Theorem no_comment_column_no_words (t : raw_table) (df : list row) (n : Z) :
  has_comment t = false ->
  incl df (load_data t) ->
  top_words (map Comment df) n = ([], [])
  /\ common_words (fst (top_words (map Comment df) n)) = py "service, coffee".
Proof.
  intros Hc Hdf.
  assert (E : top_words (map Comment df) n = ([], [])).
  { rewrite top_words_items, counts_of_tokens.
    rewrite no_comment_no_token.
    - unfold slice_to. simpl. rewrite !firstn_nil.
      destruct (n <? 0)%Z; reflexivity.
    - apply dropna_map_Some. intros r Hr. apply Hdf in Hr.
      apply load_data_spec in Hr. destruct Hr as [[raw [_ ->]] _].
      simpl. rewrite Hc. reflexivity. }
  rewrite E. split; reflexivity.
Qed.
End WordsShape.

Lemma top_words_counts_total_witness :
  list_sum (snd (@top_words exact_runtime
                   [Some (py "Great coffee and great staff")] 12))
  = length (@tokens exact_runtime [py "Great coffee and great staff"]).
Proof.
  apply (@top_words_counts_total exact_runtime
           [Some (py "Great coffee and great staff")] 12).
  vm_compute. reflexivity.
Defined.

Lemma top_words_prefix_witness :
  fst (@top_words exact_runtime [Some (py "Great coffee and great staff")] 1)
  = firstn 1 (fst (@top_words exact_runtime
                     [Some (py "Great coffee and great staff")] 12)).
Proof.
  apply (@top_words_prefix exact_runtime
           [Some (py "Great coffee and great staff")] 1 12).
  lia.
Defined.

Lemma no_comment_column_no_words_witness :
  @top_words exact_runtime (map Comment (@load_data exact_runtime bare_table)) 12
  = ([], [])
  /\ common_words
       (fst (@top_words exact_runtime
               (map Comment (@load_data exact_runtime bare_table)) 12))
     = py "service, coffee".
Proof.
  apply (@no_comment_column_no_words exact_runtime bare_table);
    [reflexivity|apply incl_refl].
Defined.


(** ** Words and whitespace *)

Lemma flush_app (w : str) (ws ws' : list str) :
  flush w (ws ++ ws') = flush w ws ++ ws'.
Proof. destruct w; reflexivity. Qed.

Lemma scan_words_app_space (x y : str) (c : char) :
  is_space c = true ->
  scan_words (x ++ c :: y)
  = (fst (scan_words x), snd (scan_words x) ++ split y).
Proof.
  intros Hc. induction x as [|d x IH]; cbn [app scan_words].
  - rewrite Hc. unfold split. destruct (scan_words y). reflexivity.
  - rewrite IH. destruct (scan_words x) as [w ws]. cbn [fst snd].
    destruct (is_space d); [rewrite flush_app|]; reflexivity.
Qed.

(** Splitting goes through a whitespace character. *)
Lemma split_app_space (x y : str) (c : char) :
  is_space c = true -> split (x ++ c :: y) = split x ++ split y.
Proof.
  intros Hc. unfold split at 1 2. rewrite (scan_words_app_space x y c Hc).
  destruct (scan_words x) as [w ws]. cbn [fst snd]. apply flush_app.
Qed.

Lemma split_spaces (sp : str) :
  Forall (fun c => is_space c = true) sp -> split sp = [].
Proof.
  induction 1 as [|c sp Hc _ IH]; [reflexivity|].
  change (c :: sp) with ([] ++ c :: sp).
  rewrite (split_app_space [] sp c Hc), IH. reflexivity.
Qed.

Lemma split_app_spaces (x sp : str) :
  Forall (fun c => is_space c = true) sp -> split (x ++ sp) = split x.
Proof.
  intros H. destruct H as [|c sp Hc H]; [rewrite app_nil_r; reflexivity|].
  rewrite (split_app_space x sp c Hc), (split_spaces H). apply app_nil_r.
Qed.

Lemma lstrip_decompose (s : str) :
  exists sp, Forall (fun c => is_space c = true) sp /\ s = sp ++ lstrip s.
Proof.
  induction s as [|c s [sp [F E]]]; [exists []; split; [constructor|reflexivity]|].
  simpl. destruct (is_space c) eqn:Hc.
  - exists (c :: sp). split; [constructor; assumption|]. simpl. f_equal. exact E.
  - exists []. split; [constructor|reflexivity].
Qed.

Lemma split_lstrip (s : str) : split (lstrip s) = split s.
Proof.
  destruct (lstrip_decompose s) as [sp [F E]]. rewrite E at 2.
  clear E. induction F as [|c sp Hc _ IH]; [reflexivity|].
  change ((c :: sp) ++ lstrip s) with ([] ++ c :: (sp ++ lstrip s)).
  rewrite (split_app_space [] _ c Hc). exact IH.
Qed.

Lemma split_rstrip (s : str) : split (rstrip s) = split s.
Proof.
  destruct (lstrip_decompose (rev s)) as [sp [F E]].
  apply (f_equal (@rev char)) in E. rewrite rev_involutive, rev_app_distr in E.
  fold (rstrip s) in E. rewrite E at 2.
  rewrite split_app_spaces; [reflexivity|]. apply Forall_rev. exact F.
Qed.

Lemma split_strip (s : str) : split (strip s) = split s.
Proof. unfold strip. rewrite split_rstrip. apply split_lstrip. Qed.

Lemma starts_clean_rev_last (u : str) :
  starts_clean (rev u) -> is_space (last u 0%N) = false.
Proof.
  destruct u as [|c u] using rev_ind; [reflexivity|].
  rewrite rev_app_distr, last_last. simpl. auto.
Qed.

Lemma split_ends_clean (u : str) :
  u <> [] -> is_space (last u 0%N) = false -> split u <> [].
Proof.
  induction u as [|c u IH]; [congruence|]. intros _ H.
  unfold split in *. cbn [scan_words].
  destruct u as [|d u].
  - cbn in *. rewrite H. discriminate.
  - assert (K : (let (w, ws) := scan_words (d :: u) in flush w ws) <> [])
      by (apply IH; [discriminate|exact H]).
    destruct (scan_words (d :: u)) as [w ws].
    destruct (is_space c); [exact K|discriminate].
Qed.

(** On a text that does not end with whitespace, collapsing the runs is
    joining the words; a run at the head gives one space, or none after a
    run. *)
Lemma collapse_spaces_join (u : str) :
  is_space (last u 0%N) = false ->
  forall b,
    collapse_spaces b u
    = match u with
      | [] => []
      | c :: _ =>
          (if is_space c then (if b then [] else py " ") else [])
            ++ join (py " ") (split u)
      end.
Proof.
  unfold collapse_spaces.
  induction u as [|c u IH]; intros H b; [reflexivity|].
  cbn [collapse_from]. destruct u as [|d u].
  - cbn in H. unfold split. cbn [scan_words]. rewrite H. reflexivity.
  - assert (H' : is_space (last (d :: u) 0%N) = false) by exact H.
    assert (Hne : split (d :: u) <> [])
      by (apply split_ends_clean; [discriminate|exact H']).
    destruct (is_space c) eqn:Ec.
    + rewrite (IH H' true).
      change (c :: d :: u) with ([] ++ c :: (d :: u)).
      rewrite (split_app_space [] (d :: u) c Ec). cbn [split app].
      destruct (is_space d); reflexivity.
    + rewrite (IH H' false). cbn [app].
      clear IH. unfold split in *. cbn [scan_words] in *. rewrite Ec.
      destruct (scan_words u) as [w ws].
      destruct (is_space d) eqn:Ed; cbn [flush app] in *.
      * destruct (flush w ws) as [|w1 ws1]; [congruence|]. reflexivity.
      * destruct ws; reflexivity.
Qed.

(** X2. Normalising a location is joining its whitespace-separated words
    with single spaces: texts with the same words get the same name, and
    the location of every cleaned row is in this form. *)
Theorem normalize_location_joins_words :
  (forall s, normalize_location s = join (py " ") (split s))
  /\ (forall a b, split a = split b ->
                  normalize_location a = normalize_location b)
  /\ (forall (RT : Runtime) t r,
         In r (load_data t) ->
         Location r = join (py " ") (split (Location r))).
Proof.
  assert (E : forall s, normalize_location s = join (py " ") (split s)).
  { intros s. rewrite normalize_location_collapse.
    destruct (strip_trimmed s) as [H1 H2].
    rewrite (collapse_spaces_join _ (starts_clean_rev_last _ H2) false).
    rewrite split_strip.
    destruct (strip s) as [|c u] eqn:Es.
    - rewrite <- (split_strip s), Es. reflexivity.
    - simpl in H1. rewrite H1. reflexivity. }
  split; [exact E|]. split.
  - intros a b H. rewrite !E, H. reflexivity.
  - intros RT t r H. apply load_data_spec in H.
    destruct H as [[raw [_ ->]] _]. simpl.
    rewrite E. rewrite split_join_words by apply split_is_word.
    reflexivity.
Qed.

Section NarrativeWords.
Context {RT : Runtime}.

(** X10. The words of the narrative are the first 400 words of the
    composed text, followed by the words of the filler when the composed
    text has fewer than 250 words, and by nothing otherwise. *)
Theorem build_narrative_keeps_words
        (df : list row) (base_len : Z) (words : list str) :
  let t := composed df base_len words in
  split (build_narrative df base_len words)
  = firstn 400 (split t)
      ++ (if words_count t <? 250 then split filler else []).
Proof.
  intros t. unfold build_narrative. fold t.
  destruct (adjust_length_spec t) as [Hhi [Hlo Hmid]].
  destruct (Nat.ltb_spec (words_count t) 250) as [L|L].
  - destruct (Hlo L) as [-> _].
    rewrite firstn_all2 by (unfold words_count in L; lia).
    exact (split_app_space t filler 32%N eq_refl).
  - rewrite app_nil_r. destruct (Nat.lt_ge_cases 400 (words_count t)) as [C|C].
    + destruct (Hhi C) as [_ [-> _]]. reflexivity.
    + rewrite Hmid by lia.
      rewrite firstn_all2 by (unfold words_count in C; lia). reflexivity.
Qed.
End NarrativeWords.

Lemma load_data_value_range_witness :
  exists v,
    TransactionValue
      (@clean_row exact_runtime sample_table (sample_row "Oak" "7" "500" "0"))
    = Some v /\ (0 < v)%Q /\ (v <= 500)%Q.
Proof.
  apply (@load_data_value_range exact_runtime sample_table).
  vm_compute. auto 10.
Defined.


(** ** Keys in order *)

Lemma str_compare_refl (a : str) : str_compare a a = Eq.
Proof.
  induction a as [|x a IH]; simpl; [reflexivity|].
  rewrite N.compare_refl. exact IH.
Qed.

Lemma str_compare_eq (a b : str) : str_compare a b = Eq <-> a = b.
Proof.
  rewrite <- str_eqb_eq, <- str_compare_eqb.
  destruct (str_compare a b); split; congruence.
Qed.

Lemma str_compare_antisym (a b : str) :
  str_compare b a = CompOpp (str_compare a b).
Proof.
  revert b. induction a as [|x a IH]; intros [|y b]; simpl; try reflexivity.
  rewrite (N.compare_antisym x y).
  destruct (N.compare x y); simpl; [apply IH|reflexivity|reflexivity].
Qed.

Lemma str_compare_trans (a b c : str) :
  str_compare a b = Lt -> str_compare b c = Lt -> str_compare a c = Lt.
Proof.
  revert b c. induction a as [|x a IH]; intros [|y b] [|z c]; simpl;
    try congruence.
  destruct (N.compare_spec x y) as [->|L1|G1]; try discriminate.
  - destruct (N.compare_spec y z) as [->|L2|G2]; try discriminate; auto.
    apply IH.
  - destruct (N.compare_spec y z) as [->|L2|G2]; try discriminate; intros _ _.
    + rewrite (proj2 (N.compare_lt_iff x z)) by exact L1. reflexivity.
    + rewrite (proj2 (N.compare_lt_iff x z)) by lia. reflexivity.
Qed.

Section KeysFacts.
Variable K : Type.
Variable cmp : K -> K -> comparison.
Hypothesis cmp_eq : forall a b, cmp a b = Eq <-> a = b.
Hypothesis cmp_antisym : forall a b, cmp b a = CompOpp (cmp a b).
Hypothesis cmp_trans : forall a b c, cmp a b = Lt -> cmp b c = Lt -> cmp a c = Lt.

Lemma insert_key_In (k x : K) (l : list K) :
  In x (insert_key cmp k l) <-> x = k \/ In x l.
Proof.
  induction l as [|y l IH]; simpl; [intuition congruence|].
  destruct (cmp k y) eqn:E; simpl.
  - apply cmp_eq in E. subst. intuition congruence.
  - intuition congruence.
  - rewrite IH. intuition congruence.
Qed.

Lemma insert_key_sorted (k : K) (l : list K) :
  StronglySorted (fun a b => cmp a b = Lt) l ->
  StronglySorted (fun a b => cmp a b = Lt) (insert_key cmp k l).
Proof.
  induction 1 as [|y l S IH F]; simpl; [repeat constructor|].
  destruct (cmp k y) eqn:E.
  - constructor; assumption.
  - constructor; [constructor; assumption|].
    constructor; [exact E|].
    rewrite Forall_forall in *. intros z Hz. eapply cmp_trans; eauto.
  - constructor; [exact IH|].
    rewrite Forall_forall in *. intros z Hz. apply insert_key_In in Hz.
    destruct Hz as [->|Hz]; [|apply F, Hz].
    rewrite cmp_antisym, E. reflexivity.
Qed.

Lemma sorted_unique_spec (l : list K) :
  (forall x, In x (sorted_unique cmp l) <-> In x l)
  /\ StronglySorted (fun a b => cmp a b = Lt) (sorted_unique cmp l).
Proof.
  unfold sorted_unique. induction l as [|k l [IH1 IH2]]; simpl.
  - split; [tauto|constructor].
  - split; [|apply insert_key_sorted; exact IH2].
    intros x. rewrite insert_key_In, IH1. intuition congruence.
Qed.
End KeysFacts.

Lemma str_sorted_unique_spec (l : list str) :
  (forall x, In x (sorted_unique str_compare l) <-> In x l)
  /\ StronglySorted (fun a b => str_compare a b = Lt)
                    (sorted_unique str_compare l).
Proof.
  apply sorted_unique_spec;
    [apply str_compare_eq|apply str_compare_antisym|apply str_compare_trans].
Qed.

(** ** The location summary *)

Lemma dropna_map_total (A B : Type) (f : A -> B) (l : list A) :
  dropna (map (fun a => Some (f a)) l) = map f l.
Proof. induction l as [|a l IH]; simpl; [|rewrite IH]; reflexivity. Qed.

Lemma In_dropna_map (A B : Type) (f : A -> option B) (b : B) (l : list A) :
  In b (dropna (map f l)) <-> exists a, In a l /\ f a = Some b.
Proof.
  induction l as [|a l IH]; simpl.
  - split; [contradiction|intros [a [[] _]]].
  - destruct (f a) as [b'|] eqn:E; simpl; rewrite IH; split.
    + intros [->|[a' [H1 H2]]]; [exists a; auto|exists a'; auto].
    + intros [a' [[->|H1] H2]]; [left; congruence|right; exists a'; auto].
    + intros [a' [H1 H2]]. exists a'; auto.
    + intros [a' [[->|H1] H2]]; [congruence|exists a'; auto].
Qed.

Lemma records_at_pos (loc : str) (df : list row) :
  0 < records_at loc df <-> exists r, In r df /\ Location r = loc.
Proof.
  unfold records_at. split.
  - destruct (filter _ df) as [|r l] eqn:E; simpl; [lia|]. intros _.
    assert (H : In r (filter (fun r => str_eqb (Location r) loc) df))
      by (rewrite E; left; reflexivity).
    apply filter_In in H. destruct H as [H1 H2]. apply str_eqb_eq in H2.
    exists r. auto.
  - intros [r [H1 H2]].
    assert (H : In r (filter (fun r => str_eqb (Location r) loc) df))
      by (apply filter_In; split; [exact H1|apply str_eqb_eq; exact H2]).
    destruct (filter _ df); [contradiction|simpl; lia].
Qed.

Lemma list_sum_map_add (A : Type) (f g : A -> nat) (l : list A) :
  list_sum (map (fun a => f a + g a) l)
  = list_sum (map f l) + list_sum (map g l).
Proof. induction l as [|a l IH]; simpl; [reflexivity|]. rewrite IH. lia. Qed.

Lemma list_sum_indicator (x : str) (ks : list str) :
  NoDup ks -> In x ks ->
  list_sum (map (fun k => if str_eqb x k then 1 else 0) ks) = 1.
Proof.
  induction 1 as [|k ks Hk _ IH]; [contradiction|]. simpl.
  intros [->|H].
  - rewrite str_eqb_refl. f_equal.
    clear IH. induction ks as [|k' ks IH]; [reflexivity|]. simpl.
    destruct (str_eqb x k') eqn:E.
    + apply str_eqb_eq in E. subst. exfalso. apply Hk. left. reflexivity.
    + apply IH. intros C. apply Hk. right. exact C.
  - destruct (str_eqb x k) eqn:E.
    + apply str_eqb_eq in E. subst. contradiction.
    + apply IH. exact H.
Qed.

Lemma records_at_partition (ks : list str) (df : list row) :
  NoDup ks -> (forall r, In r df -> In (Location r) ks) ->
  list_sum (map (fun k => records_at k df) ks) = length df.
Proof.
  intros N. induction df as [|r df IH]; intros H.
  - clear. induction ks as [|k ks IH]; [reflexivity|exact IH].
  - transitivity
      (list_sum (map (fun k => (if str_eqb (Location r) k then 1 else 0)
                               + records_at k df) ks)).
    + f_equal. apply map_ext. intros k. unfold records_at. simpl.
      destruct (str_eqb (Location r) k); reflexivity.
    + rewrite list_sum_map_add.
      rewrite (@list_sum_indicator (Location r) ks N (H r (or_introl eq_refl))).
      rewrite (IH (fun r' Hr => H r' (or_intror Hr))). reflexivity.
Qed.

Section SummaryFacts.
Context {RT : Runtime}.

Lemma location_summary_keys (df : list row) :
  map fst (location_summary df)
  = sorted_unique str_compare (map Location df).
Proof.
  unfold location_summary, groupby. rewrite !map_map. simpl.
  rewrite map_id, dropna_map_total. reflexivity.
Qed.

Lemma location_summary_counts (df : list row) :
  map (fun e => count (snd e)) (location_summary df)
  = map (fun k => records_at k df) (sorted_unique str_compare (map Location df)).
Proof.
  unfold location_summary, groupby. rewrite !map_map. simpl.
  rewrite dropna_map_total. apply map_ext. intros k.
  unfold records_at. f_equal. apply filter_ext. intros r.
  unfold has_key. apply str_compare_eqb.
Qed.

(** X11. The location summary has one entry for each location of the
    frame, in increasing order of the names and none twice; no entry has a
    count of zero, and the counts add up to the number of rows. *)
Theorem location_summary_partition (df : list row) :
  StronglySorted (fun a b => str_compare a b = Lt)
                 (map fst (location_summary df))
  /\ (forall loc, In loc (map fst (location_summary df))
                  <-> exists r, In r df /\ Location r = loc)
  /\ Forall (fun e => 1 <= count (snd e)) (location_summary df)
  /\ list_sum (map (fun e => count (snd e)) (location_summary df)) = length df.
Proof.
  destruct (str_sorted_unique_spec (map Location df)) as [Hin Hs].
  assert (Hkeys : forall loc, In loc (map fst (location_summary df))
                              <-> exists r, In r df /\ Location r = loc).
  { intros loc. rewrite location_summary_keys, Hin, in_map_iff.
    split; intros [r [H1 H2]]; exists r; auto. }
  split; [rewrite location_summary_keys; exact Hs|].
  split; [exact Hkeys|]. split.
  - apply Forall_forall. intros [loc st] H.
    simpl. rewrite (@location_summary_count _ df loc st H).
    apply records_at_pos. apply Hkeys.
    apply in_map_iff. exists (loc, st). auto.
  - rewrite location_summary_counts. apply records_at_partition.
    + apply StronglySorted_NoDup with (2 := Hs).
      intros a C. rewrite str_compare_refl in C. discriminate.
    + intros r Hr. apply Hin. apply in_map. exact Hr.
Qed.
End SummaryFacts.

(** ** The order of the ranking *)

Section SortOrder.
Variable A : Type.
Variable before : A -> A -> bool.
Variable R : A -> A -> Prop.
Hypothesis before_R : forall y x, before y x = true -> R y x.
Hypothesis not_before_R : forall y x, before y x = false -> R x y.
Hypothesis R_trans : forall a b c, R a b -> R b c -> R a c.

Lemma insert_sorted_sorted (x : A) (l : list A) :
  StronglySorted R l -> StronglySorted R (insert_sorted before x l).
Proof.
  induction 1 as [|y l S IH F]; simpl; [repeat constructor|].
  destruct (before y x) eqn:E.
  - constructor; [exact IH|].
    rewrite Forall_forall in *. intros z Hz. apply insert_sorted_In in Hz.
    destruct Hz as [->|Hz]; [apply before_R, E|apply F, Hz].
  - constructor; [constructor; assumption|].
    constructor; [apply not_before_R, E|].
    rewrite Forall_forall in *. intros z Hz.
    apply R_trans with y; [apply not_before_R, E|apply F, Hz].
Qed.

Lemma stable_sort_sorted (l : list A) : StronglySorted R (stable_sort before l).
Proof.
  induction l as [|x l IH]; simpl; [constructor|].
  apply insert_sorted_sorted. exact IH.
Qed.
End SortOrder.

Lemma sorted_head_first (A : Type) (R : A -> A -> Prop) (l : list A) (h e : A) :
  (forall a, R a a) -> StronglySorted R l ->
  In h (firstn 1 l) -> In e l -> R h e.
Proof.
  intros Rrefl S Hh He. destruct l as [|x l]; [contradiction|].
  simpl in Hh. destruct Hh as [<-|[]].
  inversion S as [|? ? _ F]; subst. destruct He as [<-|He]; [apply Rrefl|].
  rewrite Forall_forall in F. apply F, He.
Qed.

Lemma Qlt_bool_true (a b : Q) : Qlt_bool a b = true -> (a <= b)%Q.
Proof.
  unfold Qlt_bool. intros H. apply negb_true_iff in H.
  apply Qlt_le_weak. apply Qnot_le_lt. intros C.
  apply Qle_bool_iff in C. congruence.
Qed.

Lemma Qlt_bool_false (a b : Q) : Qlt_bool a b = false -> (b <= a)%Q.
Proof.
  unfold Qlt_bool. intros H. apply negb_false_iff in H.
  apply Qle_bool_iff. exact H.
Qed.

Section RankingOrder.
Context {RT : Runtime}.

Lemma sort_by_rating_descending (s : list (str * loc_stats)) :
  StronglySorted (fun a b => (avg_rating (snd b) <= avg_rating (snd a))%Q)
                 (sort_by_rating false s).
Proof.
  unfold sort_by_rating. apply stable_sort_sorted.
  - intros y x H. apply Qlt_bool_true. exact H.
  - intros y x H. apply Qlt_bool_false. exact H.
  - intros a b c H1 H2. eapply Qle_trans; eassumption.
Qed.

Lemma sort_by_rating_ascending (s : list (str * loc_stats)) :
  StronglySorted (fun a b => (avg_rating (snd a) <= avg_rating (snd b))%Q)
                 (sort_by_rating true s).
Proof.
  unfold sort_by_rating. apply stable_sort_sorted.
  - intros y x H. apply Qlt_bool_true. exact H.
  - intros y x H. apply Qlt_bool_false. exact H.
  - intros a b c H1 H2. eapply Qle_trans; eassumption.
Qed.

Lemma enough_samples_has (df : list row) (loc : str) :
  5 <= records_at loc df ->
  exists st, In (loc, st) (enough_samples (location_summary df)).
Proof.
  intros H.
  assert (K : In loc (map fst (location_summary df))).
  { rewrite location_summary_keys. apply str_sorted_unique_spec.
    assert (P : 0 < records_at loc df) by lia.
    apply records_at_pos in P. destruct P as [r [H1 H2]].
    apply in_map_iff. exists r. auto. }
  apply in_map_iff in K. destruct K as [[loc' st] [E K]]. simpl in E. subst.
  exists st. unfold enough_samples. apply filter_In. split; [exact K|].
  cbn [snd]. rewrite (@location_summary_count _ df loc st K).
  apply Nat.leb_le. exact H.
Qed.

(** X12. The ten charted locations are in decreasing order of their mean
    rating. Among the locations with five rows or more, none has a higher
    mean rating than the top location of the narrative and none a lower
    one than its bottom location; both are named as soon as one location
    has five rows. *)
Theorem ranking_order (df : list row) :
  StronglySorted (fun a b => (avg_rating (snd b) <= avg_rating (snd a))%Q)
                 (top_loc df)
  /\ (forall e t, In e (enough_samples (location_summary df)) ->
                  In t (narrative_top_loc df) ->
                  (avg_rating (snd e) <= avg_rating (snd t))%Q)
  /\ (forall e b, In e (enough_samples (location_summary df)) ->
                  In b (narrative_bottom_loc df) ->
                  (avg_rating (snd b) <= avg_rating (snd e))%Q)
  /\ (forall loc, 5 <= records_at loc df ->
                  narrative_top_loc df <> [] /\ narrative_bottom_loc df <> []).
Proof.
  unfold top_loc, narrative_top_loc, narrative_bottom_loc.
  set (s := enough_samples (location_summary df)).
  split; [apply StronglySorted_firstn, sort_by_rating_descending|].
  split; [|split].
  - intros e t He Ht.
    apply (sorted_head_first (R := fun a b => (avg_rating (snd b) <= avg_rating (snd a))%Q)
             (l := sort_by_rating false s)); auto.
    + intros a. apply Qle_refl.
    + apply sort_by_rating_descending.
    + unfold sort_by_rating. apply stable_sort_In. exact He.
  - intros e b He Hb.
    apply (sorted_head_first (R := fun a b => (avg_rating (snd a) <= avg_rating (snd b))%Q)
             (l := sort_by_rating true s)); auto.
    + intros a. apply Qle_refl.
    + apply sort_by_rating_ascending.
    + unfold sort_by_rating. apply stable_sort_In. exact He.
  - intros loc H. apply enough_samples_has in H. destruct H as [st H].
    fold s in H. split.
    + assert (K : In (loc, st) (sort_by_rating false s))
        by (unfold sort_by_rating; apply stable_sort_In; exact H).
      destruct (sort_by_rating false s); [contradiction|discriminate].
    + assert (K : In (loc, st) (sort_by_rating true s))
        by (unfold sort_by_rating; apply stable_sort_In; exact H).
      destruct (sort_by_rating true s); [contradiction|discriminate].
Qed.
End RankingOrder.

(** ** The busy day *)

Lemma day_name_In (t : Z) : In (day_name t) day_names.
Proof.
  unfold day_name. apply nth_In.
  change (length day_names) with 7.
  pose proof (Z.mod_pos_bound (t / ns_per_day + 3) 7 eq_refl). lia.
Qed.

Lemma idxmax_from_spec (s : list (str * Q)) :
  forall k v,
    exists v', In (idxmax_from k v s, v') ((k, v) :: s)
               /\ (v <= v')%Q
               /\ forall e, In e s -> (snd e <= v')%Q.
Proof.
  induction s as [|[k' v'] s IH]; intros k v; cbn [idxmax_from].
  - exists v. split; [left; reflexivity|]. split; [apply Qle_refl|].
    intros e [].
  - destruct (Qlt_bool v v') eqn:E.
    + destruct (IH k' v') as [m [H1 [H2 H3]]]. exists m.
      split; [right; exact H1|]. split.
      * eapply Qle_trans; [apply Qlt_bool_true; exact E|exact H2].
      * intros e [<-|He]; [exact H2|apply H3, He].
    + destruct (IH k v) as [m [H1 [H2 H3]]]. exists m.
      split; [destruct H1 as [H1|H1]; [left; exact H1|right; right; exact H1]|].
      split; [exact H2|].
      intros e [<-|He]; [|apply H3, He].
      eapply Qle_trans; [apply Qlt_bool_false; exact E|exact H2].
Qed.

Section BusyDay.
Context {RT : Runtime}.

Lemma day_stats_keys (df : list row) :
  map fst (day_stats df)
  = sorted_unique str_compare (dropna (map DayName df)).
Proof.
  unfold day_stats, groupby. rewrite !map_map. simpl. apply map_id.
Qed.

(** X13. Without a timestamp in the frame the narrative speaks of "the
    busier days". With one, the busy day is a weekday name, a row of the
    frame falls on it, and no weekday of the frame has a higher mean
    transaction value. *)
Theorem busy_day_spec (df : list row) :
  ((forall r, In r df -> TransactionDateTime r = None) ->
   busy_day df = py "the busier days")
  /\ ((exists r, In r df /\ TransactionDateTime r <> None) ->
      In (busy_day df) day_names
      /\ (exists r, In r df /\ DayName r = Some (busy_day df))
      /\ exists v, In (busy_day df, v) (day_stats df)
                   /\ forall e, In e (day_stats df) -> (snd e <= v)%Q).
Proof.
  split.
  - intros H. unfold busy_day.
    assert (E : day_stats df = []).
    { apply map_eq_nil with (f := fst). rewrite day_stats_keys.
      replace (dropna (map DayName df)) with (@nil str); [reflexivity|].
      symmetry. induction df as [|r df IH]; [reflexivity|]. simpl.
      unfold DayName at 1. rewrite (H r (or_introl eq_refl)). simpl.
      apply IH. intros r' Hr. apply H. right. exact Hr. }
    rewrite E. reflexivity.
  - intros [r0 [Hr0 Ht0]].
    assert (Hkey : forall d, In d (map fst (day_stats df))
                             <-> exists r, In r df /\ DayName r = Some d).
    { intros d. rewrite day_stats_keys.
      rewrite (proj1 (str_sorted_unique_spec _) d). apply In_dropna_map. }
    assert (Hmax : exists v, In (busy_day df, v) (day_stats df)
                             /\ forall e, In e (day_stats df) -> (snd e <= v)%Q).
    { unfold busy_day. destruct (day_stats df) as [|[k v] s] eqn:E.
      - exfalso. destruct (TransactionDateTime r0) as [t0|] eqn:Et; [|congruence].
        assert (K : In (day_name t0) (map fst (@nil (str * Q)))).
        { apply Hkey. exists r0. split; [exact Hr0|].
          unfold DayName. rewrite Et. reflexivity. }
        exact K.
      - cbn [idxmax]. destruct (idxmax_from_spec s k v) as [m [H1 [H2 H3]]].
        exists m. split; [exact H1|].
        intros e [<-|He]; [exact H2|apply H3, He]. }
    destruct Hmax as [v [Hin Hmax]].
    assert (Hrow : exists r, In r df /\ DayName r = Some (busy_day df)).
    { apply Hkey. apply in_map_iff. exists (busy_day df, v). auto. }
    split; [|split; [exact Hrow|exists v; auto]].
    destruct Hrow as [r [_ Hd]]. unfold DayName in Hd.
    destruct (TransactionDateTime r) as [t|]; [|discriminate].
    simpl in Hd. injection Hd as <-. apply day_name_In.
Qed.
End BusyDay.


(** ** The filtered view *)

Lemma fold_min_le (l : list Z) :
  forall x y, In y (x :: l) -> (fold_left Z.min l x <= y)%Z.
Proof.
  induction l as [|a l IH]; intros x y H; simpl.
  - destruct H as [->|[]]. lia.
  - destruct H as [->|[->|H]].
    + pose proof (IH (Z.min y a) (Z.min y a) (or_introl eq_refl)). lia.
    + pose proof (IH (Z.min x y) (Z.min x y) (or_introl eq_refl)). lia.
    + apply IH. right. exact H.
Qed.

Lemma fold_max_ge (l : list Z) :
  forall x y, In y (x :: l) -> (y <= fold_left Z.max l x)%Z.
Proof.
  induction l as [|a l IH]; intros x y H; simpl.
  - destruct H as [->|[]]. lia.
  - destruct H as [->|[->|H]].
    + pose proof (IH (Z.max y a) (Z.max y a) (or_introl eq_refl)). lia.
    + pose proof (IH (Z.max x y) (Z.max x y) (or_introl eq_refl)). lia.
    + apply IH. right. exact H.
Qed.

Lemma filter_filter (A : Type) (f g : A -> bool) (l : list A) :
  filter g (filter f l) = filter (fun a => f a && g a) l.
Proof.
  induction l as [|a l IH]; simpl; [reflexivity|].
  destruct (f a); simpl; [destruct (g a)|]; rewrite IH; reflexivity.
Qed.

(** The frame after the location and the rating filters. *)
Lemma selected_frame (df_full : list row) (ui : selection) :
  filter (in_rating_range (fst (rating_range ui)) (snd (rating_range ui)))
         match locations ui with
         | [] => df_full
         | _ => filter (fun r => existsb (str_eqb (Location r)) (locations ui))
                       df_full
         end
  = filter (selected ui) df_full.
Proof.
  unfold selected. destruct (locations ui); [reflexivity|].
  apply filter_filter.
Qed.

(** The sidebar in two cases: no selected row has a timestamp and the
    date widget is not shown, or it is shown with the days of the first
    and of the last timestamp. *)
Lemma sidebar_cases (df_full : list row) (ui : selection) :
  let df2 := filter (selected ui) df_full in
  let head := [SidebarHeader (py "Filters");
               Multiselect (py "Select locations")
                           (sorted_unique str_compare (map Location df_full));
               Slider (py "Rating range")] in
  ((forall r, In r df2 -> TransactionDateTime r = None)
   /\ sidebar df_full ui
      = (head ++ [DownloadButton (py "Download cleaned data (CSV)") df2],
         Some df2))
  \/ (exists t_min t_max,
         (exists r, In r df2 /\ TransactionDateTime r <> None)
         /\ (forall r t, In r df2 -> TransactionDateTime r = Some t ->
                         (t_min <= t <= t_max)%Z)
         /\ let d_min := (t_min / ns_per_day)%Z in
            let d_max := (t_max / ns_per_day)%Z in
            let df3 := match date_input ui d_min d_max with
                       | Some (d_start, d_end) =>
                           filter (in_date_range d_start d_end) df2
                       | None => df2
                       end in
            sidebar df_full ui
            = (head ++ [DateInput (py "Date range") d_min d_max;
                        DownloadButton (py "Download cleaned data (CSV)") df3],
               Some df3)).
Proof.
  cbv zeta. unfold sidebar. rewrite selected_frame.
  set (df2 := filter (selected ui) df_full).
  destruct (dropna (map TransactionDateTime df2)) as [|t0 ts] eqn:E.
  - left. split; [|reflexivity].
    intros r Hr. destruct (TransactionDateTime r) as [t|] eqn:Et; [|reflexivity].
    assert (K : In t (dropna (map TransactionDateTime df2)))
      by (apply In_dropna_map; exists r; auto).
    rewrite E in K. contradiction.
  - right. exists (fold_left Z.min ts t0), (fold_left Z.max ts t0). split.
    { assert (K : In t0 (dropna (map TransactionDateTime df2)))
        by (rewrite E; left; reflexivity).
      apply In_dropna_map in K. destruct K as [r [H1 H2]].
      exists r. split; [exact H1|congruence]. }
    split.
    + intros r t Hr Et.
      assert (K : In t (t0 :: ts))
        by (rewrite <- E; apply In_dropna_map; exists r; auto).
      split; [apply fold_min_le|apply fold_max_ge]; exact K.
    + cbn [Zmin_list Zmax_list].
      destruct (date_input ui _ _) as [[d_start d_end]|]; reflexivity.
Qed.

Lemma selected_spec (ui : selection) (r : row) :
  selected ui r = true <->
  (locations ui = [] \/ In (Location r) (locations ui))
  /\ exists x, Rating r = Some x
               /\ (fst (rating_range ui) <= x)%Q
               /\ (x <= snd (rating_range ui))%Q.
Proof.
  unfold selected, in_rating_range. rewrite andb_true_iff.
  assert (L : match locations ui with
              | [] => true
              | _ => existsb (str_eqb (Location r)) (locations ui)
              end = true
              <-> locations ui = [] \/ In (Location r) (locations ui)).
  { destruct (locations ui) as [|l ls] eqn:E.
    - split; auto.
    - rewrite existsb_str_eqb. split; [auto|]. intros [C|C]; [discriminate|exact C]. }
  rewrite L. apply and_iff_compat_l.
  destruct (Rating r) as [x|].
  - rewrite andb_true_iff, !Qle_bool_iff. split.
    + intros H. exists x. auto.
    + intros [y [E H]]. injection E as <-. exact H.
  - split; [discriminate|]. intros [y [E _]]. discriminate.
Qed.

Lemma in_date_range_spec (d_start d_end : Z) (r : row) :
  in_date_range d_start d_end r = true <->
  exists d, Date r = Some d /\ (d_start <= d <= d_end)%Z.
Proof.
  unfold in_date_range. destruct (Date r) as [d|].
  - rewrite andb_true_iff, !Z.leb_le. split.
    + intros H. exists d. auto.
    + intros [d' [E H]]. injection E as <-. exact H.
  - split; [discriminate|]. intros [d [E _]]. discriminate.
Qed.

(** X14. The location choices of the sidebar are the locations of the
    cleaned frame, each once, in increasing order. *)
Theorem sidebar_offers_locations (df_full : list row) (ui : selection) :
  exists options,
    In (Multiselect (py "Select locations") options) (fst (sidebar df_full ui))
    /\ (forall loc, In loc options <-> exists r, In r df_full /\ Location r = loc)
    /\ StronglySorted (fun a b => str_compare a b = Lt) options.
Proof.
  exists (sorted_unique str_compare (map Location df_full)).
  destruct (str_sorted_unique_spec (map Location df_full)) as [Hin Hs].
  split; [|split; [|exact Hs]].
  - destruct (sidebar_cases df_full ui) as [[_ ->]|[t1 [t2 [_ [_ E]]]]];
      [|cbv zeta in E; rewrite E]; cbn; auto.
  - intros loc. rewrite Hin, in_map_iff.
    split; intros [r [H1 H2]]; exists r; auto.
Qed.

(** X15. The sidebar never ends the run. Every row of the view it returns
    is a row of the cleaned frame at a selected location (any location
    when none is selected) with a rating in the selected range; when the
    date widget is shown and answers two dates, every row of the view has
    a date between them; and the download button, the last call of the
    sidebar, carries this view. *)
Theorem sidebar_view (df_full : list row) (ui : selection) :
  exists ev df,
    sidebar df_full ui = (ev, Some df)
    /\ (forall r, In r df ->
          In r df_full
          /\ (locations ui = [] \/ In (Location r) (locations ui))
          /\ exists x, Rating r = Some x
                       /\ (fst (rating_range ui) <= x)%Q
                       /\ (x <= snd (rating_range ui))%Q)
    /\ (forall label d_min d_max d_start d_end,
          In (DateInput label d_min d_max) ev ->
          date_input ui d_min d_max = Some (d_start, d_end) ->
          forall r, In r df ->
                    exists d, Date r = Some d /\ (d_start <= d <= d_end)%Z)
    /\ last ev (Title []) = DownloadButton (py "Download cleaned data (CSV)") df.
Proof.
  assert (Hsel : forall r, In r (filter (selected ui) df_full) ->
                           In r df_full
                           /\ (locations ui = [] \/ In (Location r) (locations ui))
                           /\ exists x, Rating r = Some x
                                        /\ (fst (rating_range ui) <= x)%Q
                                        /\ (x <= snd (rating_range ui))%Q).
  { intros r H. apply filter_In in H. destruct H as [H1 H2].
    apply selected_spec in H2. tauto. }
  destruct (sidebar_cases df_full ui) as [[_ E]|[t1 [t2 [_ [_ E]]]]];
    cbv zeta in E; rewrite E; eexists; eexists; (split; [reflexivity|]).
  - split; [exact Hsel|]. split; [|reflexivity].
    intros label d_min d_max d_start d_end H. cbn in H.
    repeat (destruct H as [H|H]; [discriminate|]). contradiction.
  - split; [|split; [|reflexivity]].
    + intros r H. apply Hsel.
      destruct (date_input ui _ _) as [[a b]|]; [|exact H].
      apply filter_In in H. apply H.
    + intros label d_min d_max d_start d_end H Hd r Hr. cbn in H.
      destruct H as [H|[H|[H|[H|[H|[]]]]]]; try discriminate.
      injection H as _ <- <-. rewrite Hd in Hr.
      apply filter_In in Hr. apply in_date_range_spec. apply Hr.
Qed.

(** X16. When the date widget answers the range it offers, the view holds
    exactly the selected rows with a timestamp: a row without one is left
    out as soon as one selected row has a timestamp. *)
Theorem default_dates_view (df_full : list row) (ui : selection) :
  keeps_offered_dates ui ->
  exists ev df,
    sidebar df_full ui = (ev, Some df)
    /\ forall r,
        In r df <->
        In r df_full /\ selected ui r = true
        /\ (TransactionDateTime r <> None
            \/ forall r', In r' df_full -> selected ui r' = true ->
                          TransactionDateTime r' = None).
Proof.
  intros Hui.
  destruct (sidebar_cases df_full ui) as [[Hnone E]|[t1 [t2 [Hsome [Hb E]]]]];
    cbv zeta in E; rewrite E; eexists; eexists; (split; [reflexivity|]);
    intros r.
  - rewrite filter_In. split.
    + intros [H1 H2]. split; [exact H1|]. split; [exact H2|]. right.
      intros r' H1' H2'. apply Hnone. apply filter_In. auto.
    + tauto.
  - rewrite Hui, filter_In, filter_In, in_date_range_spec. split.
    + intros [[H1 H2] [d [Hd _]]]. split; [exact H1|]. split; [exact H2|].
      left. unfold Date in Hd. destruct (TransactionDateTime r); [|discriminate].
      discriminate.
    + intros [H1 [H2 H3]]. split; [auto|].
      assert (Hin : In r (filter (selected ui) df_full))
        by (apply filter_In; auto).
      destruct (TransactionDateTime r) as [t|] eqn:Et.
      * exists (t / ns_per_day)%Z. unfold Date. rewrite Et.
        split; [reflexivity|]. destruct (Hb r t Hin Et) as [B1 B2].
        split; apply Z.div_le_mono; try reflexivity; assumption.
      * exfalso. destruct H3 as [H3|H3]; [congruence|].
        destruct Hsome as [r0 [Hr0 Ht0]]. apply filter_In in Hr0.
        apply Ht0. apply H3; tauto.
Qed.

Lemma default_dates_view_witness :
  exists ev df,
    sidebar (@load_data exact_runtime sample_table) open_selection
    = (ev, Some df)
    /\ forall r,
        In r df <->
        In r (@load_data exact_runtime sample_table)
        /\ selected open_selection r = true
        /\ (TransactionDateTime r <> None
            \/ forall r', In r' (@load_data exact_runtime sample_table) ->
                          selected open_selection r' = true ->
                          TransactionDateTime r' = None).
Proof.
  apply (@default_dates_view (@load_data exact_runtime sample_table)
                             open_selection).
  unfold keeps_offered_dates. simpl. reflexivity.
Defined.

(** ** A run with rows left *)

Lemma last_app_cons (A : Type) (l1 l2 : list A) (x d : A) :
  last (l1 ++ x :: l2) d = last (x :: l2) d.
Proof.
  induction l1 as [|a l1 IH]; [reflexivity|].
  simpl app. rewrite <- IH. destruct (l1 ++ x :: l2) eqn:E; [|reflexivity].
  destruct l1; discriminate.
Qed.

Lemma sidebar_no_warning (df_full : list row) (ui : selection) :
  ~ In (Warning no_data) (fst (sidebar df_full ui)).
Proof.
  destruct (sidebar_cases df_full ui) as [[_ E]|[t1 [t2 [_ [_ E]]]]];
    cbv zeta in E; rewrite E; cbn; intros H;
    repeat (destruct H as [H|H]; [discriminate|]); exact H.
Qed.

Section PageRuns.
Context {RT : Runtime}.

(** X17. When the filters leave a row, the run is not stopped and shows
    no warning; the record card shows the size of the view; and the last
    call writes the narrative of the view, with the size of the whole
    cleaned frame as its base and the words ranked from the comments of
    the view. *)
Theorem page_completes (df_full : list row) (ui : selection)
        (r : row) (df : list row) :
  snd (sidebar df_full ui) = Some (r :: df) ->
  let view := r :: df in
  snd (page df_full ui) = Some tt
  /\ ~ In (Warning no_data) (fst (page df_full ui))
  /\ In (Metric (py "Records") (fmt_thousands (length view)))
        (fst (page df_full ui))
  /\ last (fst (page df_full ui)) (Title [])
     = Write (build_narrative view (Z.of_nat (length df_full))
                (fst (top_words (map Comment view) 12))).
Proof.
  intros H view.
  pose proof (sidebar_no_warning df_full ui) as Hw.
  destruct (sidebar df_full ui) as [ev [df'|]] eqn:E; [|discriminate].
  simpl in H. injection H as ->. simpl in Hw. subst view.
  unfold page. rewrite E.
  destruct (top_words (map Comment (r :: df)) 12) as [words counts] eqn:Ew.
  unfold kpi_cards, charts.
  cbv beta iota zeta delta [bind emit ret when stop fst snd].
  change (length (r :: df) =? 0) with false. cbv beta iota.
  rewrite Ew.
  destruct (existsb (fun r0 => is_some (Date r0)) (r :: df));
    destruct (negb (length (top_loc (r :: df)) =? 0));
    destruct (negb (length words =? 0));
    cbn [app fst snd];
    (split; [reflexivity|]);
    (split; [intros C; destruct C as [C|C]; [discriminate|];
             apply in_app_or in C; destruct C as [C|C]; [exact (Hw C)|];
             cbn in C; repeat (destruct C as [C|C]; [discriminate|]); exact C|]);
    (split; [right; apply in_or_app; right; right; left; reflexivity|]);
    rewrite app_comm_cons, last_app_cons; reflexivity.
Qed.
End PageRuns.

Lemma page_completes_witness :
  snd (@page exact_runtime ranking_sample open_selection) = Some tt
  /\ ~ In (Warning no_data) (fst (@page exact_runtime ranking_sample open_selection))
  /\ In (Metric (py "Records") (fmt_thousands (length ranking_sample)))
        (fst (@page exact_runtime ranking_sample open_selection))
  /\ last (fst (@page exact_runtime ranking_sample open_selection)) (Title [])
     = Write (@build_narrative exact_runtime ranking_sample
                (Z.of_nat (length ranking_sample))
                (fst (@top_words exact_runtime (map Comment ranking_sample) 12))).
Proof.
  apply (@page_completes exact_runtime ranking_sample open_selection
           (rated_row (py "Main St") 3%Q) (tl ranking_sample)).
  vm_compute. reflexivity.
Defined.


(** ** The daily trend *)

Lemma Z_sorted_unique_spec (l : list Z) :
  (forall x, In x (sorted_unique Z.compare l) <-> In x l)
  /\ StronglySorted (fun a b => Z.compare a b = Lt) (sorted_unique Z.compare l).
Proof.
  apply sorted_unique_spec.
  - apply Z.compare_eq_iff.
  - intros a b. apply Z.compare_antisym.
  - intros a b c H1 H2. exact (Z.lt_trans a b c H1 H2).
Qed.

Section DailyTrendFacts.
Context {RT : Runtime}.

(** X18. When the daily trend is drawn it has one point for each calendar
    date of the view, in increasing order of the dates; it is drawn if and
    only if a row of the view has a date. *)
Theorem daily_trend_dates (df : list row) :
  (forall title data,
      In (PlotlyChart title (DailyTrend data)) (fst (charts df)) ->
      StronglySorted Z.lt (map fst data)
      /\ forall d, In d (map fst data) <-> exists r, In r df /\ Date r = Some d)
  /\ ((exists title data,
          In (PlotlyChart title (DailyTrend data)) (fst (charts df)))
      <-> exists r, In r df /\ Date r <> None).
Proof.
  set (data0 := map (fun g => (fst g, (rating_mean (snd g), txn_mean (snd g))))
                    (groupby Z.compare Date df)).
  assert (Hkeys : map fst data0 = sorted_unique Z.compare (dropna (map Date df))).
  { unfold data0, groupby. rewrite !map_map. simpl. apply map_id. }
  assert (Hev : forall title data,
             In (PlotlyChart title (DailyTrend data)) (fst (charts df)) ->
             data = data0 /\ existsb (fun r => is_some (Date r)) df = true).
  { intros title data H. unfold charts in H. fold data0 in H.
    destruct (existsb (fun r => is_some (Date r)) df);
      destruct (negb (length (top_loc df) =? 0)); cbn in H;
      repeat (destruct H as [H|H]; [try discriminate|]); try contradiction;
      injection H as _ <-; auto. }
  assert (Hex : existsb (fun r => is_some (Date r)) df = true
                <-> exists r, In r df /\ Date r <> None).
  { rewrite existsb_exists. split; intros [r [H1 H2]]; exists r;
      (split; [exact H1|]); destruct (Date r); simpl in *; congruence. }
  split.
  - intros title data H. apply Hev in H. destruct H as [-> _].
    rewrite Hkeys. destruct (Z_sorted_unique_spec (dropna (map Date df))) as [Hin Hs].
    split.
    + eapply StronglySorted_weaken; [exact Hs|].
      intros a b _ _ C. apply Z.compare_lt_iff. exact C.
    + intros d. rewrite Hin. apply In_dropna_map.
  - rewrite <- Hex. split.
    + intros [title [data H]]. apply Hev in H. apply H.
    + intros H. exists (py "Daily trend: rating and spend"), data0.
      unfold charts. fold data0. rewrite H.
      destruct (negb (length (top_loc df) =? 0)); cbn; auto.
Qed.
End DailyTrendFacts.
